(** * jest-haste-map: the index build pipeline

    A shallow embedding of [packages/jest-haste-map/src/index.js] (class
    [HasteMap]) and the properties of its build pipeline:
    cache location, ignore predicate, cache loader, crawler dispatch,
    metadata builder with the collision-checked module installer, worker
    pool life cycle and the single-flight [build()].

    Conventions of the embedding.
    - JavaScript strings are [string]; one [ascii] stands for one code unit.
    - The index a crawler resolves to is a record of four tables.  Objects
      created with [Object.create(null)] and used as dictionaries ([map],
      [mocks], the per-id platform tables) are [gmap string _]: their
      observable keys are exactly the inserted ones.  The [files] table is
      iterated with [for ... in], so it is an association list in
      enumeration order.
    - What the cache loader reads is not checked by the class: it is
      whatever [JSON.parse] returns, a tree of type [JSON], and it is
      handed to the crawler as it is.
    - A promise chain is run to its settled value: [Return v] for a
      fulfilled promise, [Throw e] for a rejected one.  What is thrown,
      and what a promise is rejected with, is an [Error] object.  Console
      output and
      the calls made to external collaborators (file system, crawlers,
      worker farm) are recorded, in order, in a log of [Event]s.
    - What the class reaches outside of [index.js] (crypto, fastpath, the
      file system, JSON, the crawlers, the worker, the platform extractor,
      the regular expression engine, the order in which promises settle)
      is a record of type [Externals], which every definition takes as its
      first argument.
    - The handlers attached with [then] run after the synchronous code that
      attached them: in [_buildHasteMap] the whole [for ... in] loop runs
      first, then the handlers of the extraction promises, one at a time. *)

From Stdlib Require Import Ascii String ZArith Lia.
From stdpp Require Import strings pretty gmap list.

Local Open Scope Z_scope.

(** ** Strings *)

Module Str.

(** [hay.includes(needle)] *)
Fixpoint includes (needle hay : string) : bool :=
  String.prefix needle hay ||
  match hay with
  | EmptyString => false
  | String _ rest => includes needle rest
  end.

(** [Some rest] when [s = p +:+ rest]. *)
Fixpoint strip_prefix (p s : string) : option string :=
  match p with
  | EmptyString => Some s
  | String a p' =>
      match s with
      | EmptyString => None
      | String b s' => if Ascii.eqb a b then strip_prefix p' s' else None
      end
  end.

Fixpoint map_chars (f : ascii → ascii) (s : string) : string :=
  match s with
  | EmptyString => EmptyString
  | String c rest => String (f c) (map_chars f rest)
  end.

(** The class [\w] of JavaScript regular expressions: [A-Za-z0-9_]. *)
Definition is_word_char (c : ascii) : bool :=
  let n := nat_of_ascii c in
  ((48 <=? n) && (n <=? 57) || (65 <=? n) && (n <=? 90) ||
   (97 <=? n) && (n <=? 122) || (n =? 95))%nat.

(** [s.replace(/\W/g, '-')] *)
Definition replace_nonword (s : string) : string :=
  map_chars (λ c, if is_word_char c then c else "-"%char) s.

(** [s.replace(/[...]/g, replacement)] for a class of code units. *)
Fixpoint replace_chars (class : ascii → bool) (replacement s : string) : string :=
  match s with
  | EmptyString => EmptyString
  | String c rest =>
      if class c then replacement +:+ replace_chars class replacement rest
      else String c (replace_chars class replacement rest)
  end.

(** [list.join(sep)] on an array of strings. *)
Definition join (sep : string) (l : list string) : string := String.concat sep l.

(** The line feed of the template literals. *)
Definition nl : string := String (ascii_of_nat 10) EmptyString.

End Str.


(** ** Data model

    The index is one object with four tables (see the comment above class
    [HasteMap]).  [FileMetaData] is the array [[id, mtime, visited,
    dependencies]] read through the constants [H.ID], [H.MTIME],
    [H.VISITED], [H.DEPENDENCIES]; [ModuleMetaData] is [[path, type]] read
    through [H.PATH] and [H.TYPE]. *)

Inductive ModuleType := MODULE | PACKAGE.

Record ModuleMetaData := mkModule {
  m_path : string;
  m_type : ModuleType;
}.

Record FileMetaData := mkFile {
  f_id : option string;
  f_mtime : Z;
  f_visited : bool;
  f_dependencies : list string;
}.

(** [{[platform: string]: ModuleMetaData}] *)
Abbreviation ModuleMapItem := (gmap string ModuleMetaData).

(** The [files] object, in the order [for (const filePath in files)]
    enumerates it. *)
Abbreviation FileTable := (list (string * FileMetaData)).

Record InternalHasteMap := mkHasteMap {
  clocks : gmap string string;
  files : FileTable;
  map : gmap string ModuleMapItem;
  mocks : gmap string string;
}.

(** The value [build()] resolves to. *)
Record HasteMapObject := mkHasteMapObject {
  hasteFS : FileTable;
  moduleMap : gmap string ModuleMapItem * gmap string string;
  __hasteMapForTest : option InternalHasteMap;
}.

(** A JavaScript [Error] object, through the two properties the class and
    [Error.prototype.toString] read. *)
Record Error := mkError { error_name : string; message : string }.

(** [new Error(message)] *)
Definition new_Error (message : string) : Error :=
  {| error_name := "Error"; message := message |}.

(** How a computation ends: normally, or by [throw] (a rejected promise). *)
Inductive Result (A : Type) :=
| Return (a : A)
| Throw (e : Error).
Arguments Return {A} a.
Arguments Throw {A} e.

Definition is_return {A} (r : Result A) : bool :=
  match r with Return _ => true | Throw _ => false end.

(** The value of a fulfilled promise. *)
Definition fulfilled {A} (r : Result A) : option A :=
  match r with Return a => Some a | Throw _ => None end.

(** A value as [JSON.parse] returns it, which is what the cache loader
    handles: nothing checks that the text of the cache file is an index, and
    only the crawlers read the value.  A number is kept as its literal.  An
    object or array carries its prototype: the built-in one
    ([Object.prototype], [Array.prototype]) when it comes from [JSON.parse]
    or from an object literal, [null] after [Object.create(null)] or
    [Object.setPrototypeOf(_, null)]. *)
Inductive Prototype := builtin_prototype | null_prototype.

Unset Elimination Schemes.
Inductive JSON :=
| JNull
| JBoolean (b : bool)
| JNumber (literal : string)
| JString (s : string)
| JArray (proto : Prototype) (elements : list JSON)
| JObject (proto : Prototype) (members : list (string * JSON)).
Set Elimination Schemes.

(** JavaScript truthiness of a [?string]. *)
Definition truthy (o : option string) : option string :=
  match o with
  | Some s => if decide (s = EmptyString) then None else Some s
  | None => None
  end.

(** [map[id][platform]], undefined when [map[id]] is. *)
Definition cell (map : gmap string ModuleMapItem) (id platform : string)
  : option ModuleMetaData :=
  map !! id ≫= (.!! platform).

(** Operations on the [files] object. *)
Module Files.

Fixpoint get (p : string) (t : FileTable) : option FileMetaData :=
  match t with
  | [] => None
  | (q, f) :: rest => if decide (q = p) then Some f else get p rest
  end.

(** [delete files[p]] *)
Fixpoint remove (p : string) (t : FileTable) : FileTable :=
  match t with
  | [] => []
  | (q, f) :: rest => if decide (q = p) then remove p rest else (q, f) :: remove p rest
  end.

(** In-place mutation of the record stored under [p]. *)
Fixpoint update (p : string) (g : FileMetaData → FileMetaData) (t : FileTable) : FileTable :=
  match t with
  | [] => []
  | (q, f) :: rest =>
      if decide (q = p) then (q, g f) :: update p g rest else (q, f) :: update p g rest
  end.

Definition keys (t : FileTable) : list string := t.*1.

End Files.

(** ** External collaborators *)

Inductive Crawler := watchmanCrawl | nodeCrawl.

(** What a call of a crawler does: throw before returning a promise,
    return a promise that rejects, or return one that resolves.

    Modelled from the spec: [./crawlers/node] and [./crawlers/watchman] are
    not among the sources; "each crawler is contractually required to
    return a HasteMap", so the value a crawl resolves to is an index,
    whatever value the crawler was given. *)
Inductive CrawlOutcome :=
| CrawlThrows (e : Error)
| CrawlRejects (e : Error)
| CrawlResolves (hasteMap : InternalHasteMap).

(** What the worker hands to its callback [(error, metadata)]. *)
Record WorkerMetadata := mkMetadata {
  md_id : option string;
  md_module : option ModuleMetaData;
  md_dependencies : option (list string);
}.

Record WorkerCallbackArgs := mkCallback {
  cb_error : option Error;
  cb_metadata : option WorkerMetadata;
}.

(** Everything the class reaches outside of [index.js]. *)
Record Externals := mkExternals {
  (** [crypto.createHash('md5').update(s).digest('hex')]; successive
      [update] calls hash the concatenation of their arguments. *)
  md5hex : string → string;
  (** [./fastpath]: [sep], [join], and [basename(p, extname(p))]. *)
  path_sep : ascii;
  path_join : string → string → string;
  path_stem : string → string;
  (** [require('../package.json').version] and [os.tmpdir()]. *)
  VERSION : string;
  os_tmpdir : string;
  (** the probe [execSync('watchman version')], done once per process. *)
  canUseWatchman : bool;
  (** [process.env.NODE_ENV === 'test'] *)
  isTest : bool;
  (** [./lib/getPlatformExtension] and [H.GENERIC_PLATFORM] of [./constants]. *)
  getPlatformExtension : string → option string;
  GENERIC_PLATFORM : string;
  (** The regular expression engine: [new RegExp(source).test(s)], and
      [s.match(new RegExp(source, 'g'))], which is [null] or the array of
      all the matches of the expression in [s]; both are given the source
      first.  The sources handed to [new RegExp] are taken to be well
      formed: on any other the constructor of the class throws, and there
      is no instance. *)
  RegExp_test : string → string → bool;
  String_match : string → string → option (list string);
  (** [fs.readFileSync(path, 'utf8')] and [fs.writeFileSync(path, data, 'utf8')]. *)
  readFileSync : string → Result string;
  writeFileSync : string → string → Result unit;
  (** [JSON.parse] and [JSON.stringify]. *)
  JSON_parse : string → Result JSON;
  JSON_stringify : InternalHasteMap → string;
  (** the two crawlers, called with [(roots, extensions, ignore, hasteMap)],
      where [hasteMap] is whatever the cache loader produced. *)
  crawl : Crawler → list string → list string → (string → bool) →
          JSON → CrawlOutcome;
  (** the metadata extractor of [./worker], in process or in the farm. *)
  worker : string → WorkerCallbackArgs;
  (** the order in which the promises pushed by [_buildHasteMap] settle. *)
  completion_order : list string → list string;
}.

(** What the class does to the outside, in order. *)
Inductive Event :=
| EWarn (msg : string)
| EReadFile (path : string)
| EWriteFile (path data : string)
| ECrawl (c : Crawler) (roots extensions : list string)
         (ignore : string → bool) (hasteMap : JSON)
| EFarmCreate (farm : nat) (maxConcurrentWorkers : Z)
| EFarmEnd (farm : nat)
| EExtract (filePath : string).

(** Views of a log. *)
Module Log.

Definition warnings (l : list Event) : list string :=
  omap (λ e, match e with EWarn msg => Some msg | _ => None end) l.

Definition crawls (l : list Event) : list Crawler :=
  omap (λ e, match e with ECrawl c _ _ _ _ => Some c | _ => None end) l.

Definition farms_created (l : list Event) : list nat :=
  omap (λ e, match e with EFarmCreate farm _ => Some farm | _ => None end) l.

Definition farms_ended (l : list Event) : list nat :=
  omap (λ e, match e with EFarmEnd farm => Some farm | _ => None end) l.

Definition extractions (l : list Event) : list string :=
  omap (λ e, match e with EExtract p => Some p | _ => None end) l.

End Log.

(** ** Options and the constructor *)

(** [type Options].  A [RegExp] is modelled by its [test] (a pattern
    without the [g] or [y] flag, whose [test] keeps no state); the mocks
    pattern is the source string handed to [hash.update] and to
    [new RegExp], the empty string standing for no pattern. *)
Record Options := mkOptions {
  o_cacheDirectory : option string;
  o_extensions : list string;
  o_ignorePattern : string → bool;
  o_maxWorkers : Z;
  o_mocksPattern : string;
  o_name : string;
  o_platforms : list string;
  o_providesModuleNodeModules : option (list string);
  o_resetCache : option bool;
  o_retainAllFiles : bool;
  o_roots : list string;
  o_throwOnModuleCollision : option bool;
  o_useWatchman : option bool;
}.

(** [this._options] *)
Record InternalOptions := mkInternalOptions {
  cacheDirectory : string;
  extensions : list string;
  ignorePattern : string → bool;
  maxWorkers : Z;
  mocksPattern : option (string → bool);
  name : string;
  platforms : list string;
  resetCache : option bool;
  retainAllFiles : bool;
  roots : list string;
  throwOnModuleCollision : bool;
  useWatchman : bool;
}.

(** The function stored in [this._workerPromise] wraps either the
    in-process worker or a farm. *)
Inductive WorkerFn := InProcess | InFarm (farm : nat).

(** The fields of an instance.  [_whitelist] is the regular expression
    built by [getWhiteList], kept as its source (its flag is always [g]);
    [_buildPromise] is the promise object, kept as its address in
    [promises].  [farms] counts the farms created so far and [log] is the
    trace of the instance's calls to the outside. *)
Record HasteMap := mkInstance {
  _options : InternalOptions;
  _cachePath : string;
  _whitelist : option string;
  _buildPromise : option nat;
  _workerPromise : option WorkerFn;
  _workerFarm : option nat;
  promises : list (option (Result HasteMapObject));
  farms : nat;
  log : list Event;
}.

Definition set_worker (wp : option WorkerFn) (wf : option nat) (h : HasteMap) : HasteMap :=
  mkInstance (_options h) (_cachePath h) (_whitelist h) (_buildPromise h)
             wp wf (promises h) (farms h) (log h).

Definition emit (e : Event) (h : HasteMap) : HasteMap :=
  mkInstance (_options h) (_cachePath h) (_whitelist h) (_buildPromise h)
             (_workerPromise h) (_workerFarm h) (promises h) (farms h) (log h ++ [e]).

Section Construction.
Context (X : Externals).

(** [NODE_MODULES = path.sep + 'node_modules' + path.sep] *)
Definition NODE_MODULES : string :=
  String (path_sep X) ("node_modules" +:+ String (path_sep X) EmptyString).

(** [escapePathSeparator]: where the separator is the backslash, every
    slash and backslash becomes two backslashes, which in the source of a
    regular expression stand for one backslash. *)
Definition escapePathSeparator (s : string) : string :=
  if Ascii.eqb (path_sep X) "\"%char
  then Str.replace_chars (λ c, Ascii.eqb c "/" || Ascii.eqb c "\") "\\" s
  else s.

(** [getWhiteList]: [null] for an absent or empty list; otherwise the
    expression whose alternatives are the configured names, joined as they
    are. *)
Definition getWhiteList (l : option (list string)) : option string :=
  match l with
  | Some (n :: ns) =>
      Some ("(" +:+ escapePathSeparator NODE_MODULES +:+
            "(?:" +:+ Str.join "|" (n :: ns) +:+ ")(?=$|" +:+
            escapePathSeparator (String (path_sep X) EmptyString) +:+ "))")
  | _ => None
  end.

(** The tokens fed to the hash by [getCacheFilePath]: every argument but
    the first. *)
Definition hashed_tokens (name : string) (extra : list string) : string :=
  String.concat "" (name :: extra).

Definition getCacheFilePath (tmpdir name : string) (extra : list string) : string :=
  path_join X tmpdir
    (Str.replace_nonword name +:+ "-" +:+ md5hex X (hashed_tokens name extra)).

Definition or_default {A} (o : option A) (d : A) : A :=
  match o with Some a => a | None => d end.

(** [options.cacheDirectory || os.tmpdir()] *)
Definition cache_directory (options : Options) : string :=
  match truthy (o_cacheDirectory options) with
  | Some d => d
  | None => os_tmpdir X
  end.

Definition constructor (options : Options) : HasteMap :=
  let cacheDirectory := cache_directory options in
  {| _options :=
       {| cacheDirectory := cacheDirectory;
          extensions := o_extensions options;
          ignorePattern := o_ignorePattern options;
          maxWorkers := o_maxWorkers options;
          mocksPattern :=
            match truthy (Some (o_mocksPattern options)) with
            | Some src => Some (RegExp_test X src)
            | None => None
            end;
          name := o_name options;
          platforms := o_platforms options;
          resetCache := o_resetCache options;
          retainAllFiles := o_retainAllFiles options;
          roots := o_roots options;
          throwOnModuleCollision := or_default (o_throwOnModuleCollision options) false;
          useWatchman := or_default (o_useWatchman options) true |};
     _cachePath :=
       getCacheFilePath cacheDirectory (o_name options)
         [ VERSION X;
           Str.join ":" (o_roots options);
           Str.join ":" (o_extensions options);
           Str.join ":" (o_platforms options);
           o_mocksPattern options ];
     _whitelist := getWhiteList (o_providesModuleNodeModules options);
     _buildPromise := None;
     _workerPromise := None;
     _workerFarm := None;
     promises := [];
     farms := 0%nat;
     log := [] |}.


End Construction.

(** ** The ignore predicate *)

Section Ignore.
Context (X : Externals).

Definition _isNodeModulesDir (h : HasteMap) (filePath : string) : bool :=
  if negb (Str.includes (NODE_MODULES X) filePath) then false
  else
    match _whitelist h with
    | Some whitelist =>
        match String_match X whitelist filePath with
        | None => true
        | Some matches => bool_decide (1 < length matches)%nat
        end
    | None => true
    end.

Definition _ignore (h : HasteMap) (filePath : string) : bool :=
  ignorePattern (_options h) filePath ||
  (negb (retainAllFiles (_options h)) && _isNodeModulesDir h filePath).

End Ignore.

(** ** The white list on literal names

    The white list is the regular expression
    [(<sep>node_modules<sep>(?:n1|n2|...)(?=$|<sep>))] with flag [g], where
    [n1, n2, ...] are the configured package names.  The names are joined
    into the source as they are, so each one is an expression of its own;
    a name without any character of the syntax of regular expressions
    matches itself and nothing else.  For such names, what
    [filePath.match(whitelist)] returns is defined below: [null] when the
    expression matches nowhere, and otherwise the array of all matches
    found scanning left to right, each search resuming where the previous
    match ended. *)

Section LiteralNames.
Context (X : Externals).

(** The look-ahead [(?=$|<sep>)]. *)
Definition lookahead (rest : string) : bool :=
  match rest with
  | EmptyString => true
  | String c _ => Ascii.eqb c (path_sep X)
  end.

(** The alternation followed by the look-ahead: the first alternative, in
    order, that matches here with the look-ahead satisfied. *)
Fixpoint match_alternatives (names : list string) (s : string) : option string :=
  match names with
  | [] => None
  | n :: ns =>
      match Str.strip_prefix n s with
      | Some rest => if lookahead rest then Some n else match_alternatives ns s
      | None => match_alternatives ns s
      end
  end.

(** One attempt of the whole expression at the start of [s]: the matched text. *)
Definition match_here (names : list string) (s : string) : option string :=
  match Str.strip_prefix (NODE_MODULES X) s with
  | Some rest =>
      match match_alternatives names rest with
      | Some n => Some (NODE_MODULES X +:+ n)
      | None => None
      end
  | None => None
  end.

(** All matches, left to right; [skip] code units still belong to the
    previous match. *)
Fixpoint scan (names : list string) (s : string) (skip : nat) : list string :=
  match s with
  | EmptyString => []
  | String _ rest =>
      match skip with
      | S k => scan names rest k
      | O =>
          match match_here names s with
          | Some m => m :: scan names rest (String.length m - 1)
          | None => scan names rest 0
          end
      end
  end.

(** [filePath.match(whitelist)] for the white list of literal [names]. *)
Definition literal_matches (names : list string) (filePath : string) : option (list string) :=
  match scan names filePath 0 with
  | [] => None
  | ms => Some ms
  end.

(** The source [getWhiteList] builds from [names]. *)
Definition whitelist_source (names : list string) : string :=
  "(" +:+ escapePathSeparator X (NODE_MODULES X) +:+
  "(?:" +:+ Str.join "|" names +:+ ")(?=$|" +:+
  escapePathSeparator X (String (path_sep X) EmptyString) +:+ "))".



(** What may follow a package name: a separator, or the end of the path. *)
Definition at_boundary (after : string) : Prop :=
  after = EmptyString ∨ ∃ rest, after = String (path_sep X) rest.

(** [s] reads [<before><sep>node_modules<sep><name><after>] for a
    configured [<name>], with [<after>] at a boundary. *)
Definition listed_at (names : list string) (before after s : string) : Prop :=
  ∃ n, n ∈ names ∧ s = before +:+ NODE_MODULES X +:+ n +:+ after ∧ at_boundary after.

Definition listed (names : list string) (s : string) : Prop :=
  ∃ before after, listed_at names before after s.


End LiteralNames.

(** ** Stage 1 and 2: the cache loader and the crawler dispatch *)

(** A method of the class: it may throw, and it may change the instance
    (its log included) either way. *)
Definition M (A : Type) : Type := HasteMap → Result A * HasteMap.

Definition ret {A} (a : A) : M A := λ h, (Return a, h).
Definition throw {A} (e : Error) : M A := λ h, (Throw e, h).
Definition bind {A B} (m : M A) (k : A → M B) : M B :=
  λ h, match m h with
       | (Return a, h') => k a h'
       | (Throw e, h') => (Throw e, h')
       end.
(** [promise.catch(handler)] *)
Definition catch {A} (m : M A) (handler : Error → M A) : M A :=
  λ h, match m h with
       | (Return a, h') => (Return a, h')
       | (Throw e, h') => handler e h'
       end.
Definition tell (e : Event) : M unit := λ h, (Return (), emit e h).
Definition lift {A} (r : Result A) : M A := λ h, (r, h).

Notation "'let*' x := m 'in' k" := (bind m (λ x, k))
  (at level 10, x name, m at level 100, k at level 200).
Notation "'do' m 'then' k" := (bind m (λ _ : unit, k))
  (at level 10, m at level 100, k at level 200).

(** The fields that only the constructor and [build()] write. *)
Definition same_instance (h h' : HasteMap) : Prop :=
  _options h' = _options h ∧ _cachePath h' = _cachePath h ∧
  _whitelist h' = _whitelist h ∧ _buildPromise h' = _buildPromise h ∧
  promises h' = promises h.

(** A method that leaves those fields alone. *)
Definition framed {A} (m : M A) : Prop := ∀ h, same_instance h (m h).2.

(** [String(error)], that is [Error.prototype.toString]: the name and the
    message joined by a colon, and only the one of them that is not empty
    when the other is. *)
Definition Error_toString (error : Error) : string :=
  if decide (error_name error = EmptyString) then message error
  else if decide (message error = EmptyString) then error_name error
  else error_name error +:+ ": " +:+ message error.

Section Loader.
Context (X : Externals).

(** An object literal whose four members are made by [Object.create(null)]. *)
Definition _createEmptyMap : JSON :=
  JObject builtin_prototype
    [ ("clocks", JObject null_prototype []);
      ("files", JObject null_prototype []);
      ("map", JObject null_prototype []);
      ("mocks", JObject null_prototype []) ].

(** The [TypeError] of [Object.setPrototypeOf(null, _)]. *)
Definition TypeError_setPrototypeOf : Error :=
  {| error_name := "TypeError";
     message := "Object.setPrototypeOf called on null or undefined" |}.

(** [Object.setPrototypeOf(value, null)]: throws on [null], leaves any other
    primitive value as it is. *)
Definition setPrototypeOf_null (value : JSON) : Result JSON :=
  match value with
  | JNull => Throw TypeError_setPrototypeOf
  | JArray _ elements => Return (JArray null_prototype elements)
  | JObject _ members => Return (JObject null_prototype members)
  | JBoolean _ | JNumber _ | JString _ => Return value
  end.

(** The loop [for (const key in hasteMap) Object.setPrototypeOf(hasteMap[key], null)]
    over the members of an object and over the elements of an array. *)
Fixpoint reset_members (members : list (string * JSON)) : Result (list (string * JSON)) :=
  match members with
  | [] => Return []
  | (key, value) :: rest =>
      match setPrototypeOf_null value with
      | Throw e => Throw e
      | Return value' =>
          match reset_members rest with
          | Throw e => Throw e
          | Return rest' => Return ((key, value') :: rest')
          end
      end
  end.

Fixpoint reset_elements (elements : list JSON) : Result (list JSON) :=
  match elements with
  | [] => Return []
  | value :: rest =>
      match setPrototypeOf_null value with
      | Throw e => Throw e
      | Return value' =>
          match reset_elements rest with
          | Throw e => Throw e
          | Return rest' => Return (value' :: rest')
          end
      end
  end.

(** [_parse]: [JSON.parse], then the loop over the keys of the value parsed.
    [for ... in] enumerates the members of an object and the elements of an
    array; it enumerates nothing of [null], a boolean or a number, and of a
    string its code units, which [Object.setPrototypeOf] leaves alone. *)
Definition _parse (hasteMapPath : string) : Result JSON :=
  match JSON_parse X hasteMapPath with
  | Throw e => Throw e
  | Return hasteMap =>
      match hasteMap with
      | JObject proto members =>
          match reset_members members with
          | Throw e => Throw e
          | Return members' => Return (JObject proto members')
          end
      | JArray proto elements =>
          match reset_elements elements with
          | Throw e => Throw e
          | Return elements' => Return (JArray proto elements')
          end
      | JNull | JBoolean _ | JNumber _ | JString _ => Return hasteMap
      end
  end.

(** [read()]: [this._parse(fs.readFileSync(this._cachePath, 'utf8'))] *)
Definition read : M JSON :=
  λ h, (do tell (EReadFile (_cachePath h)) then
        let* data := lift (readFileSync X (_cachePath h)) in
        lift (_parse data)) h.

(** The part of [_buildFileMap] before the crawl. *)
Definition load : M JSON :=
  λ h, let read := if or_default (resetCache (_options h)) false
                   then ret _createEmptyMap else read in
       catch read (λ _, ret _createEmptyMap) h.

Definition watchman_warning (error : Error) : string :=
  "jest-haste-map: Watchman crawl failed. Retrying once with node " +:+
  "crawler." +:+ Str.nl +:+
  "  Usually this happens when watchman isn't running. Create an " +:+
  "empty `.watchmanconfig` file in your project's root folder or " +:+
  "initialize a git or hg repository in your project." +:+ Str.nl +:+
  "  " +:+ Error_toString error.

Definition retry_failed (error e : Error) : Error :=
  new_Error
    ("Crawler retry failed:" +:+ Str.nl +:+
     "  Original error: " +:+ message error +:+ Str.nl +:+
     "  Retry error: " +:+ message e +:+ Str.nl).

(** A call [c(options.roots, options.extensions, ignore, hasteMap)]. *)
Definition call_crawler (c : Crawler) (hasteMap : JSON) : M CrawlOutcome :=
  λ h, let o := _options h in
       (do tell (ECrawl c (roots o) (extensions o) (_ignore X h) hasteMap) then
        ret (crawl X c (roots o) (extensions o) (_ignore X h) hasteMap)) h.

Definition selected_crawler (h : HasteMap) : Crawler :=
  if canUseWatchman X && useWatchman (_options h) then watchmanCrawl else nodeCrawl.

Definition retry (selected : Crawler) (hasteMap : JSON) (error : Error)
  : M InternalHasteMap :=
  match selected with
  | watchmanCrawl =>
      do tell (EWarn (watchman_warning error)) then
      let* outcome := call_crawler nodeCrawl hasteMap in
      match outcome with
      | CrawlResolves m => ret m
      | CrawlRejects e => throw (retry_failed error e)
      | CrawlThrows e => throw e
      end
  | nodeCrawl => throw error
  end.

Definition _crawl (hasteMap : JSON) : M InternalHasteMap :=
  λ h, let selected := selected_crawler h in
       (let* outcome := call_crawler selected hasteMap in
        match outcome with
        | CrawlResolves m => ret m
        | CrawlRejects error => retry selected hasteMap error
        | CrawlThrows error => retry selected hasteMap error
        end) h.

Definition _buildFileMap : M InternalHasteMap :=
  let* hasteMap := load in _crawl hasteMap.

End Loader.

(** ** Stage 3: the metadata builder *)

(** The local state of one run of [_buildHasteMap]: [map], [mocks] and the
    paths whose extraction promise was pushed on [promises]. *)
Record Loop := mkLoop {
  l_map : gmap string ModuleMapItem;
  l_mocks : gmap string string;
  l_promises : list string;
}.

(** What the [then] handlers of the extraction promises mutate. *)
Record Tables := mkTables {
  t_files : FileTable;
  t_map : gmap string ModuleMapItem;
}.

Section Builder.
Context (X : Externals).

Definition collision_message (throws : bool) (id : string)
    (module existingModule : ModuleMetaData) : string :=
  "jest-haste-map: @providesModule naming collision:" +:+ Str.nl +:+
  "  Duplicate module name: " +:+ id +:+ Str.nl +:+
  "  Paths: " +:+ m_path module +:+ " collides with " +:+
  m_path existingModule +:+ Str.nl +:+ Str.nl +:+ "This " +:+
  (if throws then "error" else "warning") +:+ " " +:+
  "is caused by a @providesModule declaration " +:+
  "with the same name across two different files.".

(** [getPlatformExtension(module[H.PATH]) || H.GENERIC_PLATFORM] *)
Definition platform_of (module : ModuleMetaData) : string :=
  or_default (truthy (getPlatformExtension X (m_path module))) (GENERIC_PLATFORM X).

(** The closure [setModule]; the [map] it closes over is threaded. *)
Definition setModule (id : string) (module : ModuleMetaData)
    (map : gmap string ModuleMapItem) : M (gmap string ModuleMapItem) :=
  λ h,
    let map := match map !! id with Some _ => map | None => <[id := ∅]> map end in
    let moduleMap := default ∅ (map !! id) in
    let platform := platform_of module in
    let installed := <[id := <[platform := module]> moduleMap]> map in
    match moduleMap !! platform with
    | Some existingModule =>
        if decide (m_path existingModule = m_path module) then (Return installed, h)
        else
          let throws := throwOnModuleCollision (_options h) in
          let message := collision_message throws id module existingModule in
          if throws then (Throw (new_Error message), h)
          else (Return map, emit (EWarn message) h)
    | None => (Return installed, h)
    end.

Definition _getWorker : M WorkerFn :=
  λ h, match _workerPromise h with
       | Some workerFn => (Return workerFn, h)
       | None =>
           if bool_decide (maxWorkers (_options h) ≤ 1)
           then (Return InProcess, set_worker (Some InProcess) (_workerFarm h) h)
           else
             let farm := farms h in
             (Return (InFarm farm),
              emit (EFarmCreate farm (maxWorkers (_options h)))
                (mkInstance (_options h) (_cachePath h) (_whitelist h) (_buildPromise h)
                   (Some (InFarm farm)) (Some farm) (promises h) (S farm) (log h)))
       end.

(** One iteration of [for (const filePath in hasteMap.files)]. *)
Definition visit (hasteMap : InternalHasteMap) (l : Loop)
    (entry : string * FileMetaData) : M Loop :=
  λ h,
    let filePath := entry.1 in
    let fileMetadata := entry.2 in
    if retainAllFiles (_options h) && _isNodeModulesDir X h filePath then (Return l, h)
    else
      let mocks :=
        match mocksPattern (_options h) with
        | Some test =>
            if test filePath then <[path_stem X filePath := filePath]> (l_mocks l)
            else l_mocks l
        | None => l_mocks l
        end in
      let submit :=
        do (let* _ := _getWorker in tell (EExtract filePath)) then
        ret (mkLoop (l_map l) mocks (l_promises l ++ [filePath])) in
      if f_visited fileMetadata then
        match truthy (f_id fileMetadata) with
        | None => (Return (mkLoop (l_map l) mocks (l_promises l)), h)
        | Some id =>
            match map hasteMap !! id with
            | Some moduleMetadata =>
                (Return (mkLoop (<[id := moduleMetadata]> (l_map l)) mocks (l_promises l)), h)
            | None => submit h
            end
        end
      else submit h.

Fixpoint for_in (hasteMap : InternalHasteMap) (entries : FileTable) (l : Loop) : M Loop :=
  match entries with
  | [] => ret l
  | entry :: rest => let* l' := visit hasteMap l entry in for_in hasteMap rest l'
  end.

(** How the promise made by [this._workerPromise] settles:
    [if (error || !metadata) reject(error) else resolve(metadata)]. *)
Definition extraction (filePath : string) : option WorkerMetadata :=
  match cb_error (worker X filePath) with
  | Some _ => None
  | None => cb_metadata (worker X filePath)
  end.

(** The fulfilment handler of the promise of [filePath]. *)
Definition on_fulfilled (filePath : string) (metadata : WorkerMetadata) (t : Tables)
  : M Tables :=
  let visited := Files.update filePath
    (λ f, mkFile (f_id f) (f_mtime f) true (f_dependencies f)) (t_files t) in
  let dependencies fs := Files.update filePath
    (λ f, mkFile (f_id f) (f_mtime f) (f_visited f)
            (or_default (md_dependencies metadata) [])) fs in
  match truthy (md_id metadata), md_module metadata with
  | Some metadataId, Some metadataModule =>
      let identified := Files.update filePath
        (λ f, mkFile (Some metadataId) (f_mtime f) (f_visited f) (f_dependencies f))
        visited in
      let* map := setModule metadataId metadataModule (t_map t) in
      ret (mkTables (dependencies identified) map)
  | _, _ => ret (mkTables (dependencies visited) (t_map t))
  end.

(** The rejection handler: [delete hasteMap.files[filePath]]. *)
Definition on_rejected (filePath : string) (t : Tables) : Tables :=
  mkTables (Files.remove filePath (t_files t)) (t_map t).

Definition settle (filePath : string) (t : Tables) : M Tables :=
  match extraction filePath with
  | Some metadata => on_fulfilled filePath metadata t
  | None => ret (on_rejected filePath t)
  end.

(** [Promise.all(promises)]: the handlers run in the order the promises
    settle; the first handler that throws rejects the whole.  The handlers
    of the promises that settle later still run, on tables that nobody
    reads any more. *)
Fixpoint settle_all (order : list string) (t : Tables) : M Tables :=
  match order with
  | [] => ret t
  | filePath :: rest => let* t' := settle filePath t in settle_all rest t'
  end.

(** The first [then] after [Promise.all]. *)
Definition teardown : M unit :=
  λ h, let h' := match _workerFarm h with
                 | Some farm => emit (EFarmEnd farm) h
                 | None => h
                 end in
       (Return (), set_worker None None h').

Definition _buildHasteMap (hasteMap : InternalHasteMap) : M InternalHasteMap :=
  let* l := for_in hasteMap (files hasteMap) (mkLoop ∅ ∅ []) in
  let* t := settle_all (completion_order X (l_promises l))
              (mkTables (files hasteMap) (l_map l)) in
  do teardown then
  ret (mkHasteMap (clocks hasteMap) (t_files t) (t_map t) (l_mocks l)).

(** The state of the loop when it ends, and the paths it has submitted to
    the worker. *)
Definition loop_result (h : HasteMap) (hasteMap : InternalHasteMap) : Loop :=
  or_default (fulfilled (for_in hasteMap (files hasteMap) (mkLoop ∅ ∅ []) h).1)
             (mkLoop ∅ ∅ []).

Definition submitted (h : HasteMap) (hasteMap : InternalHasteMap) : list string :=
  l_promises (loop_result h hasteMap).

(** An unchanged file with a module id whose cached platform table the
    loop copies through. *)
Definition copies (h : HasteMap) (hasteMap : InternalHasteMap)
    (entry : string * FileMetaData) (id : string) (moduleMetadata : ModuleMapItem) : Prop :=
  retainAllFiles (_options h) && _isNodeModulesDir X h entry.1 = false ∧
  f_visited entry.2 = true ∧
  truthy (f_id entry.2) = Some id ∧
  map hasteMap !! id = Some moduleMetadata.


(** ** Stage 4 and [build()] *)

Definition _persist (hasteMap : InternalHasteMap) : M InternalHasteMap :=
  λ h, let data := JSON_stringify X hasteMap in
       (do tell (EWriteFile (_cachePath h) data) then
        do lift (writeFileSync X (_cachePath h) data) then
        ret hasteMap) h.

(** The promise chain built by [build()]. *)
Definition pipeline : M HasteMapObject :=
  let* fileMap := _buildFileMap X in
  let* internalHasteMap := _buildHasteMap fileMap in
  let* internalHasteMap := _persist internalHasteMap in
  ret {| hasteFS := files internalHasteMap;
         moduleMap := (map internalHasteMap, mocks internalHasteMap);
         __hasteMapForTest := if isTest X then Some internalHasteMap else None |}.








End Builder.

(** ** Concrete worlds

    Instances of the external collaborators, for running the pipeline on
    concrete inputs. *)

Module World.

(** The text after the last occurrence of [c] (all of [s] when there is none). *)
Fixpoint after_last (c : ascii) (s : string) : string :=
  match s with
  | EmptyString => EmptyString
  | String d rest =>
      if Str.includes (String c EmptyString) rest then after_last c rest
      else if Ascii.eqb d c then rest else s
  end.

(** The text before the last occurrence of [c] (all of [s] when there is none). *)
Fixpoint before_last (c : ascii) (s : string) : string :=
  match s with
  | EmptyString => EmptyString
  | String d rest =>
      if Str.includes (String c EmptyString) rest then String d (before_last c rest)
      else if Ascii.eqb d c then EmptyString else s
  end.

(** Modelled from the spec: [./fastpath] is not among the sources; the
    mocks stem is "a file's base name minus its final extension". *)
Definition stem (p : string) : string := before_last "." (after_last "/" p).

(** Modelled from the spec: [./lib/getPlatformExtension] is not among the
    sources; "the platform extractor inspects the double-extension form
    [Name.<platform>.<ext>] and yields [<platform>] if it is in the
    configured platform set". *)
Definition platform_extension (platforms : list string) (p : string) : option string :=
  let base := before_last "." p in
  if Str.includes "." base then
    let platform := after_last "." base in
    if bool_decide (platform ∈ platforms) then Some platform else None
  else None.

(** A digest that is only good for telling short tokens apart. *)
Definition toy_digest (s : string) : string := s.

Definition ENOENT : Error := new_Error "ENOENT: no such file or directory".

Definition SyntaxError : Error :=
  {| error_name := "SyntaxError"; message := "Unexpected end of JSON input" |}.

(** The value [JSON.parse] makes of the text of an index.

    Modelled from the spec: [./constants] is not among the sources;
    "readers must accept the positional FileRecord tuple [[id, mtime,
    visited, dependencies]] and the ModuleRef tuple [[path, kind]]".  The
    two kinds are written [0] and [1] here. *)
Definition table {A} (value : A → JSON) (t : list (string * A)) : JSON :=
  JObject builtin_prototype (prod_map id value <$> t).

Definition of_file (f : FileMetaData) : JSON :=
  JArray builtin_prototype
    [ match f_id f with Some id => JString id | None => JNull end;
      JNumber (pretty (f_mtime f));
      JNumber (if f_visited f then "1" else "0");
      JArray builtin_prototype (JString <$> f_dependencies f) ].

Definition of_module (m : ModuleMetaData) : JSON :=
  JArray builtin_prototype
    [ JString (m_path m);
      JNumber (match m_type m with MODULE => "0" | PACKAGE => "1" end) ].

Definition of_index (m : InternalHasteMap) : JSON :=
  JObject builtin_prototype
    [ ("clocks", table JString (map_to_list (clocks m)));
      ("files", table of_file (files m));
      ("map", table (λ mm, table of_module (map_to_list mm)) (map_to_list (map m)));
      ("mocks", table JString (map_to_list (mocks m))) ].

(** A regular expression engine for the white lists of a POSIX file
    system, [(/node_modules/(?:n1|n2|...)(?=$|/))], whose names are made of
    literal characters and of [.], which matches any code unit but a line
    terminator.  On any other source it finds no match. *)
Definition line_terminator (c : ascii) : bool :=
  Ascii.eqb c (ascii_of_nat 10) || Ascii.eqb c (ascii_of_nat 13).

(** A name matched at the start of [s]: the text matched, and the rest. *)
Fixpoint match_name (n s : string) : option (string * string) :=
  match n with
  | EmptyString => Some (EmptyString, s)
  | String a n' =>
      match s with
      | EmptyString => None
      | String b s' =>
          if (if Ascii.eqb a "." then negb (line_terminator b) else Ascii.eqb a b)
          then match match_name n' s' with
               | Some (m, rest) => Some (String b m, rest)
               | None => None
               end
          else None
      end
  end.

Definition followed_by_end_or_separator (rest : string) : bool :=
  match rest with
  | EmptyString => true
  | String c _ => Ascii.eqb c "/"
  end.

Fixpoint first_alternative (names : list string) (s : string) : option string :=
  match names with
  | [] => None
  | n :: ns =>
      match match_name n s with
      | Some (m, rest) =>
          if followed_by_end_or_separator rest then Some m else first_alternative ns s
      | None => first_alternative ns s
      end
  end.

Definition match_at (names : list string) (s : string) : option string :=
  match Str.strip_prefix "/node_modules/" s with
  | Some rest =>
      match first_alternative names rest with
      | Some m => Some ("/node_modules/" +:+ m)
      | None => None
      end
  | None => None
  end.

Fixpoint all_matches (names : list string) (s : string) (skip : nat) : list string :=
  match s with
  | EmptyString => []
  | String _ rest =>
      match skip with
      | S k => all_matches names rest k
      | O =>
          match match_at names s with
          | Some m => m :: all_matches names rest (String.length m - 1)
          | None => all_matches names rest 0
          end
      end
  end.

(** The alternatives of a source, read after [(/node_modules/(?:]. *)
Fixpoint alternatives (s : string) : option (list string) :=
  if decide (s = ")(?=$|/))") then Some [EmptyString]
  else
    match s with
    | EmptyString => None
    | String c rest =>
        match alternatives rest with
        | Some (n :: ns) =>
            if Ascii.eqb c "|" then Some (EmptyString :: n :: ns) else Some (String c n :: ns)
        | _ => None
        end
    end.

Definition regexp_match (source s : string) : option (list string) :=
  match Str.strip_prefix "(/node_modules/(?:" source ≫= alternatives with
  | Some names =>
      match all_matches names s 0 with
      | [] => None
      | ms => Some ms
      end
  | None => None
  end.

(** A world whose cache file, when there is one, holds the given text,
    which parses to the given value; with the given crawler behaviour and
    worker behaviour, on a POSIX file system with watchman installed, where
    promises settle in the order they were made. *)
Definition world_of (cache : option (string * JSON)) (crawled : Crawler → CrawlOutcome)
    (work : string → WorkerCallbackArgs) : Externals :=
  {| md5hex := toy_digest;
     path_sep := "/";
     path_join := λ dir f, dir +:+ "/" +:+ f;
     path_stem := stem;
     VERSION := "17.0.0";
     os_tmpdir := "/tmp";
     canUseWatchman := true;
     isTest := false;
     getPlatformExtension := platform_extension ["ios"; "android"];
     GENERIC_PLATFORM := "g";
     RegExp_test := λ source s, Str.includes source s;
     String_match := regexp_match;
     readFileSync :=
       λ _, match cache with Some (text, _) => Return text | None => Throw ENOENT end;
     writeFileSync := λ _ _, Return ();
     JSON_parse :=
       λ text, match cache with
               | Some (cached, value) =>
                   if decide (text = cached) then Return value else Throw SyntaxError
               | None => Throw SyntaxError
               end;
     JSON_stringify := λ _, "cache";
     crawl := λ c _ _ _ _, crawled c;
     worker := work;
     completion_order := λ ps, ps |}.

(** A world whose cache file, when there is one, holds the given index. *)
Definition world (cache : option InternalHasteMap) (crawled : Crawler → CrawlOutcome)
    (work : string → WorkerCallbackArgs) : Externals :=
  world_of ((λ m, ("cache", of_index m)) <$> cache) crawled work.

(** The index with no entry. *)
Definition nothing : InternalHasteMap := mkHasteMap ∅ [] ∅ ∅.

Definition options : Options :=
  {| o_cacheDirectory := None;
     o_extensions := ["js"];
     o_ignorePattern := λ _, false;
     o_maxWorkers := 1;
     o_mocksPattern := "__mocks__";
     o_name := "haste-map-test";
     o_platforms := ["ios"; "android"];
     o_providesModuleNodeModules := Some ["react"];
     o_resetCache := None;
     o_retainAllFiles := false;
     o_roots := ["/src"];
     o_throwOnModuleCollision := None;
     o_useWatchman := None |}.

Definition with_policy (throws : bool) (workers : Z) (o : Options) : Options :=
  mkOptions (o_cacheDirectory o) (o_extensions o) (o_ignorePattern o) workers
    (o_mocksPattern o) (o_name o) (o_platforms o) (o_providesModuleNodeModules o)
    (o_resetCache o) (o_retainAllFiles o) (o_roots o) (Some throws) (Some false).

Definition with_names (names : list string) (o : Options) : Options :=
  mkOptions (o_cacheDirectory o) (o_extensions o) (o_ignorePattern o) (o_maxWorkers o)
    (o_mocksPattern o) (o_name o) (o_platforms o) (Some names)
    (o_resetCache o) (o_retainAllFiles o) (o_roots o) (o_throwOnModuleCollision o)
    (o_useWatchman o).


(** A worker that extracts a module named [id] from the listed files, no
    module from files listed with no id, and fails on any other file. *)
Fixpoint extractor (known : list (string * option string)) (p : string) : WorkerCallbackArgs :=
  match known with
  | [] => {| cb_error := Some ENOENT; cb_metadata := None |}
  | (q, id) :: rest =>
      if decide (q = p)
      then {| cb_error := None;
              cb_metadata := Some {| md_id := id;
                                     md_module := (λ _, mkModule p MODULE) <$> id;
                                     md_dependencies := Some [] |} |}
      else extractor rest p
  end.

(** A world with no cache, no crawler and no worker that succeeds. *)
Definition quiet : Externals :=
  world None (λ _, CrawlRejects ENOENT) (extractor []).

Definition fresh (mtime : Z) : FileMetaData := mkFile (Some EmptyString) mtime false [].
Definition seen (id : string) (mtime : Z) : FileMetaData := mkFile (Some id) mtime true [].

(** A build on a new instance, run to its end. *)
Definition run_build (X : Externals) (o : Options) : Result HasteMapObject * HasteMap :=
  pipeline X (constructor X o).

(** The platforms and paths published under a module id. *)
Definition cells (r : Result HasteMapObject) (id : string) : list (string * string) :=
  match r with
  | Return o => (λ kv, (kv.1, m_path kv.2)) <$> map_to_list (default ∅ ((moduleMap o).1 !! id))
  | Throw _ => []
  end.

End World.

(** ** Notions used to describe a run *)

(** The values [for ... in] enumerates in a parsed value. *)
Definition members_of (value : JSON) : list JSON :=
  match value with
  | JObject _ members => members.*2
  | JArray _ elements => elements
  | JNull | JBoolean _ | JNumber _ | JString _ => []
  end.

(** A value whose prototype, when it has one, is [null]. *)
Definition without_prototype (value : JSON) : JSON :=
  match value with
  | JArray _ elements => JArray null_prototype elements
  | JObject _ members => JObject null_prototype members
  | JNull | JBoolean _ | JNumber _ | JString _ => value
  end.

(** A parsed value, the prototype of each of its members reset. *)
Definition with_plain_members (value : JSON) : JSON :=
  match value with
  | JObject proto members => JObject proto (prod_map id without_prototype <$> members)
  | JArray proto elements => JArray proto (without_prototype <$> elements)
  | JNull | JBoolean _ | JNumber _ | JString _ => value
  end.

(** The cache files written, with their content, in order. *)
Definition written (l : list Event) : list (string * string) :=
  omap (λ e, match e with EWriteFile p data => Some (p, data) | _ => None end) l.

(** An instance with more events in its log. *)
Definition extend (h : HasteMap) (events : list Event) : HasteMap :=
  mkInstance (_options h) (_cachePath h) (_whitelist h) (_buildPromise h)
             (_workerPromise h) (_workerFarm h) (promises h) (farms h) (log h ++ events).

(** The events of the crawler dispatch, and those of the metadata stage. *)
Definition crawler_event (e : Event) : Prop :=
  match e with ECrawl _ _ _ _ _ | EWarn _ => True | _ => False end.

Definition builder_event (e : Event) : Prop :=
  match e with EFarmCreate _ _ | EFarmEnd _ | EExtract _ | EWarn _ => True | _ => False end.

Section Stage.
Context (X : Externals).

(** The first test of the loop body: [retainAllFiles] and a path under
    [node_modules]. *)
Definition skipped (h : HasteMap) (entry : string * FileMetaData) : bool :=
  retainAllFiles (_options h) && _isNodeModulesDir X h entry.1.

(** The entries of [files] that reach [promises.push]: not skipped, and not
    stopped by one of the two [continue] of the visited branch. *)
Definition needs_extraction (h : HasteMap) (hasteMap : InternalHasteMap)
    (entry : string * FileMetaData) : bool :=
  negb (skipped h entry) &&
  (negb (f_visited entry.2) ||
   match truthy (f_id entry.2) with
   | Some id => bool_decide (map hasteMap !! id = None)
   | None => false
   end).

(** The entries of [files] for which the loop writes [mocks]. *)
Definition registers_mock (h : HasteMap) (entry : string * FileMetaData) : bool :=
  negb (skipped h entry) &&
  match mocksPattern (_options h) with
  | Some test => test entry.1
  | None => false
  end.

(** [this._getWorker()({filePath})] on the instance. *)
Definition submit (h : HasteMap) (filePath : string) : HasteMap :=
  emit (EExtract filePath) (_getWorker h).2.

(** What the fulfilment handler makes of a file record. *)
Definition recorded (metadata : WorkerMetadata) (f : FileMetaData) : FileMetaData :=
  mkFile (match truthy (md_id metadata), md_module metadata with
          | Some metadataId, Some _ => Some metadataId
          | _, _ => f_id f
          end)
         (f_mtime f) true (or_default (md_dependencies metadata) []).

(** The stages of the pipeline before the cache is written. *)
Definition stages_before_persist : M InternalHasteMap :=
  let* fileMap := _buildFileMap X in _buildHasteMap X fileMap.

(** The object [build()] resolves to, made of the persisted index. *)
Definition publish (internalHasteMap : InternalHasteMap) : HasteMapObject :=
  {| hasteFS := files internalHasteMap;
     moduleMap := (map internalHasteMap, mocks internalHasteMap);
     __hasteMapForTest := if isTest X then Some internalHasteMap else None |}.

End Stage.

(** * Properties *)

(** ** Strings *)

Module StrFacts.
Import Str.

Lemma prefix_app (x b : string) : String.prefix x (x +:+ b) = true.
Proof.
  induction x as [|c x IH]; simpl.
  - by destruct b.
  - destruct (ascii_dec c c); [exact IH | congruence].
Qed.

Lemma includes_cons (x : string) (c : ascii) (s : string) :
  includes x s = true → includes x (String c s) = true.
Proof. intros H. simpl. rewrite H. apply orb_true_r. Qed.

Lemma includes_prefix (x s : string) :
  String.prefix x s = true → includes x s = true.
Proof. intros H. destruct s; simpl in *; rewrite H; done. Qed.

Lemma includes_app_r (x a b : string) :
  includes x b = true → includes x (a +:+ b) = true.
Proof.
  intros H. induction a as [|c a IH]; [exact H|].
  apply (includes_cons x c (a +:+ b)), IH.
Qed.

Lemma includes_self_l (x b : string) : includes x (x +:+ b) = true.
Proof. apply includes_prefix, prefix_app. Qed.


Lemma app_cons (c : ascii) (a b : string) : String c a +:+ b = String c (a +:+ b).
Proof. reflexivity. Qed.



Lemma app_assoc (a b c : string) : (a +:+ b) +:+ c = a +:+ (b +:+ c).
Proof. induction a as [|d a IH]; [done | by rewrite !app_cons, IH]. Qed.


End StrFacts.

(** ** The cache location *)

Section CacheLocation.
Context (X : Externals).


End CacheLocation.




(** ** The ignore predicate *)

Section IgnoreFacts.
Context (X : Externals).


Lemma strip_prefix_Some (p s rest : string) :
  Str.strip_prefix p s = Some rest → s = p +:+ rest.
Proof.
  revert s. induction p as [|c p IH]; intros s H; simpl in H; [by injection H as ->|].
  destruct s as [|d s]; [discriminate|].
  destruct (Ascii.eqb c d) eqn:Hcd; [|discriminate].
  apply Ascii.eqb_eq in Hcd as ->. rewrite StrFacts.app_cons. f_equal. by apply IH.
Qed.

Lemma lookahead_spec (rest : string) : lookahead X rest = true ↔ at_boundary X rest.
Proof.
  unfold at_boundary. destruct rest as [|c rest]; simpl.
  - split; [by left | done].
  - rewrite Ascii.eqb_eq. split.
    + intros ->. right. by exists rest.
    + intros [? | [r [= -> _]]]; done.
Qed.

Lemma match_alternatives_Some (names : list string) (s n : string) :
  match_alternatives X names s = Some n →
  n ∈ names ∧ ∃ rest, s = n +:+ rest ∧ lookahead X rest = true.
Proof.
  induction names as [|m names IH]; simpl; [discriminate|].
  destruct (Str.strip_prefix m s) as [rest|] eqn:Hm.
  - destruct (lookahead X rest) eqn:Hla.
    + intros [= <-]. split; [by left|]. exists rest. split; [by apply strip_prefix_Some | done].
    + intros H. destruct (IH H) as [? ?]. split; [by right | done].
  - intros H. destruct (IH H) as [? ?]. split; [by right | done].
Qed.




Lemma match_here_Some (names : list string) (s m : string) :
  match_here X names s = Some m →
  ∃ n after, n ∈ names ∧ m = NODE_MODULES X +:+ n ∧
             s = NODE_MODULES X +:+ n +:+ after ∧ at_boundary X after.
Proof.
  unfold match_here. intros H.
  destruct (Str.strip_prefix (NODE_MODULES X) s) as [rest|] eqn:Hnm; [|discriminate].
  destruct (match_alternatives X names rest) as [n|] eqn:Halt; [|discriminate].
  injection H as <-.
  apply match_alternatives_Some in Halt as (Hn & after & -> & Hla).
  apply strip_prefix_Some in Hnm. apply lookahead_spec in Hla.
  by exists n, after.
Qed.



Lemma listed_at_cons (names : list string) (c : ascii) (before after s : string) :
  listed_at X names before after s ↔
  listed_at X names (String c before) after (String c s).
Proof.
  unfold listed_at. split; intros (n & Hn & Hs & Hb); exists n.
  - rewrite StrFacts.app_cons, <- Hs. done.
  - rewrite StrFacts.app_cons in Hs. injection Hs as Hs. done.
Qed.






(** Every occurrence found by the scan is [node_modules/<name>] for a
    configured name, followed by a separator or the end of the path. *)
Lemma scan_sound (names : list string) (s : string) (skip : nat) (m : string) :
  m ∈ scan X names s skip → listed X names s.
Proof.
  revert skip. induction s as [|c s IH]; intros skip Hin; simpl in Hin.
  { by apply elem_of_nil in Hin. }
  assert (Htail : ∀ k, m ∈ scan X names s k → listed X names (String c s)).
  { intros k Hk. destruct (IH k Hk) as (before & after & Hl).
    exists (String c before), after. by apply listed_at_cons. }
  destruct skip as [|k]; [|by apply (Htail k)].
  destruct (match_here X names (String c s)) as [m'|] eqn:Hhere; [|by apply (Htail 0%nat)].
  apply elem_of_cons in Hin as [-> | Hin]; [|by eapply Htail].
  apply match_here_Some in Hhere as (n & after & Hn & _ & Hs & Hb).
  exists EmptyString, after, n. done.
Qed.






End IgnoreFacts.




(** ** The cache loader *)

Section LoadFacts.
Context (X : Externals).

Lemma setPrototypeOf_null_spec (value : JSON) :
  (value = JNull ∧ setPrototypeOf_null value = Throw TypeError_setPrototypeOf) ∨
  (value ≠ JNull ∧ setPrototypeOf_null value = Return (without_prototype value)).
Proof. destruct value; [by left | by right..]. Qed.

Lemma reset_members_spec (members : list (string * JSON)) :
  ((JNull ∈ members.*2) ∧ reset_members members = Throw TypeError_setPrototypeOf) ∨
  ((JNull ∉ members.*2) ∧
   reset_members members = Return (prod_map id without_prototype <$> members)).
Proof.
  induction members as [|[key value] rest IH]; [right; split; [apply not_elem_of_nil | done]|].
  simpl. destruct (setPrototypeOf_null_spec value) as [[-> ->] | [Hvalue ->]].
  - left. split; [left | done].
  - destruct IH as [[Hin ->] | [Hout ->]].
    + left. split; [by right | done].
    + right. split; [|done]. intros Hin. apply elem_of_cons in Hin as [Heq | Hin]; auto.
Qed.

Lemma reset_elements_spec (elements : list JSON) :
  ((JNull ∈ elements) ∧ reset_elements elements = Throw TypeError_setPrototypeOf) ∨
  ((JNull ∉ elements) ∧ reset_elements elements = Return (without_prototype <$> elements)).
Proof.
  induction elements as [|value rest IH]; [right; split; [apply not_elem_of_nil | done]|].
  simpl. destruct (setPrototypeOf_null_spec value) as [[-> ->] | [Hvalue ->]].
  - left. split; [left | done].
  - destruct IH as [[Hin ->] | [Hout ->]].
    + left. split; [by right | done].
    + right. split; [|done]. intros Hin. apply elem_of_cons in Hin as [Heq | Hin]; auto.
Qed.

(** [_parse] on a text that [JSON.parse] accepts. *)
Lemma parse_spec (text : string) (value : JSON) :
  JSON_parse X text = Return value →
  ((JNull ∈ members_of value) ∧ _parse X text = Throw TypeError_setPrototypeOf) ∨
  ((JNull ∉ members_of value) ∧ _parse X text = Return (with_plain_members value)).
Proof.
  intros Hparse. unfold _parse. rewrite Hparse.
  destruct value as [| | | |proto elements|proto members]; simpl;
    try (right; split; [apply not_elem_of_nil | done]).
  - destruct (reset_elements_spec elements) as [[Hin ->] | [Hout ->]]; [by left | by right].
  - destruct (reset_members_spec members) as [[Hin ->] | [Hout ->]]; [by left | by right].
Qed.

(** Without [resetCache], the loader reads the cache file once and does
    nothing else to the instance. *)
Lemma load_reads_once (h : HasteMap) :
  or_default (resetCache (_options h)) false = false →
  (load X h).2 = emit (EReadFile (_cachePath h)) h ∧
  (load X h).1 =
    match readFileSync X (_cachePath h) with
    | Return text => match _parse X text with
                     | Return value => Return value
                     | Throw _ => Return _createEmptyMap
                     end
    | Throw _ => Return _createEmptyMap
    end.
Proof.
  intros Hoff. unfold load, catch, read, bind, tell, lift, ret. rewrite Hoff.
  destruct (readFileSync X (_cachePath h)) as [text|e]; [|done].
  by destruct (_parse X text).
Qed.

End LoadFacts.

(** C3, as stated, fails for content that is not an index but is JSON: the
    loader checks nothing, so a cache file that holds [null], or an array
    of one empty object, is produced as it is and handed to the crawler,
    not replaced by the empty map. *)
Lemma cache_that_is_no_index_is_loaded_as_it_is :
  let crawled := λ _ : Crawler, CrawlRejects World.ENOENT in
  let X := World.world_of (Some ("null", JNull)) crawled (World.extractor []) in
  let Y := World.world_of (Some ("[{}]", JArray builtin_prototype [JObject builtin_prototype []]))
             crawled (World.extractor []) in
  let h := constructor X World.options in
  (load X h).1 = Return JNull ∧
  (load Y h).1 = Return (JArray builtin_prototype [JObject null_prototype []]) ∧
  (∀ v, (load X h).1 = Return v → v ≠ _createEmptyMap) ∧
  (∀ v, (load Y h).1 = Return v → v ≠ _createEmptyMap) ∧
  omap (λ e, match e with ECrawl c _ _ _ data => Some (c, data) | _ => None end)
       (log (_buildFileMap X h).2) = [(watchmanCrawl, JNull); (nodeCrawl, JNull)].
Proof.
  cbv zeta. split; [reflexivity|]. split; [reflexivity|].
  split; [|split; [|reflexivity]]; intros v Hv; vm_compute in Hv; by injection Hv as <-.
Qed.

(** C3, amended: stage 1 produces the deserialization of the cache file,
    whatever value [JSON.parse] makes of its text, index or not, with the
    prototype of each of its members reset; when reading the file fails (a
    missing file, which is also what a cache of another version amounts
    to), when its text is not JSON, or when a member of the value parsed is
    [null], it produces the empty map instead; with [resetCache] set it
    produces the empty map and the file system is not touched.  In the
    empty map the four tables are present, without member and without
    prototype. *)
Theorem load_reads_cache_or_starts_empty (X : Externals) (h : HasteMap) :
  (resetCache (_options h) = Some true →
   load X h = (Return _createEmptyMap, h)) ∧
  (resetCache (_options h) ≠ Some true →
   (load X h).2 = emit (EReadFile (_cachePath h)) h ∧
   (∀ e, readFileSync X (_cachePath h) = Throw e →
         (load X h).1 = Return _createEmptyMap) ∧
   (∀ text e, readFileSync X (_cachePath h) = Return text →
              JSON_parse X text = Throw e →
              (load X h).1 = Return _createEmptyMap) ∧
   (∀ text value, readFileSync X (_cachePath h) = Return text →
                  JSON_parse X text = Return value →
                  (JNull ∈ members_of value → (load X h).1 = Return _createEmptyMap) ∧
                  (JNull ∉ members_of value →
                   (load X h).1 = Return (with_plain_members value)))) ∧
  _createEmptyMap =
    JObject builtin_prototype
      [ ("clocks", JObject null_prototype []); ("files", JObject null_prototype []);
        ("map", JObject null_prototype []); ("mocks", JObject null_prototype []) ].
Proof.
  split; [|split; [|done]].
  - intros Hr. unfold load, catch, ret. by rewrite Hr.
  - intros Hr.
    assert (Hoff : or_default (resetCache (_options h)) false = false).
    { destruct (resetCache (_options h)) as [[]|]; simpl; congruence. }
    destruct (load_reads_once X h Hoff) as [Hstate Hvalue].
    split; [done|]. rewrite Hvalue. split; [|split].
    + by intros e ->.
    + intros text e -> Hparse. unfold _parse. by rewrite Hparse.
    + intros text value -> Hparse.
      destruct (parse_spec X text value Hparse) as [[Hin ->] | [Hout ->]]; by split.
Qed.

Lemma load_reads_cache_or_starts_empty_witness :
  let cached :=
    mkHasteMap ∅ [("/src/a.js", World.seen "A" 1)]
      {[ "A" := {[ "g" := mkModule "/src/a.js" MODULE ]} ]} ∅ in
  let X := World.world (Some cached) (λ _, CrawlRejects World.ENOENT) (World.extractor []) in
  (load X (constructor X World.options)).1 =
    Return (with_plain_members (World.of_index cached)).
Proof.
  cbv zeta.
  set (cached := mkHasteMap ∅ _ _ ∅).
  set (X := World.world (Some cached) _ _).
  destruct (load_reads_cache_or_starts_empty X (constructor X World.options))
    as (_ & Hread & _).
  destruct (Hread ltac:(discriminate)) as (_ & _ & _ & Hparsed).
  apply (Hparsed "cache" (World.of_index cached) eq_refl eq_refl).
  vm_compute. intros Hin.
  repeat (apply elem_of_cons in Hin as [Hin | Hin]; [discriminate|]).
  by apply elem_of_nil in Hin.
Defined.

(** ** The crawler dispatch *)

Section CrawlFacts.
Context (X : Externals).

Lemma retry_failed_names_both (error e : Error) :
  Str.includes (message error) (message (retry_failed error e)) = true ∧
  Str.includes (message e) (message (retry_failed error e)) = true.
Proof.
  unfold retry_failed. cbn [message]. split.
  - do 3 apply StrFacts.includes_app_r. apply StrFacts.includes_self_l.
  - do 6 apply StrFacts.includes_app_r. apply StrFacts.includes_self_l.
Qed.

End CrawlFacts.


(** X13: if the watcher crawler is selected and its crawl rejects or throws
    synchronously, the builder emits one diagnostic, which ends with the
    error printed by [Error.prototype.toString], and invokes the native
    crawler exactly once with the same roots, extensions, ignore predicate
    and loaded value; the crawl resolves to what that retry resolves to,
    and if the promise of the retry rejects, the crawl rejects with one
    error whose message contains both the original watcher error message
    and the retry error message.  When the native crawler is selected
    initially (watcher unavailable or [useWatchman] disabled), a crawl
    failure is fatal with no retry. *)
Theorem crawl_retries_watchman_once (X : Externals) (h : HasteMap)
    (hasteMap : JSON) :
  let o := _options h in
  let call c := ECrawl c (roots o) (extensions o) (_ignore X h) hasteMap in
  let outcome c := crawl X c (roots o) (extensions o) (_ignore X h) hasteMap in
  (∀ error, selected_crawler X h = watchmanCrawl →
     outcome watchmanCrawl = CrawlRejects error ∨ outcome watchmanCrawl = CrawlThrows error →
     log (_crawl X hasteMap h).2 =
       log h ++ [call watchmanCrawl; EWarn (watchman_warning error); call nodeCrawl] ∧
     (∀ m, outcome nodeCrawl = CrawlResolves m → (_crawl X hasteMap h).1 = Return m) ∧
     (∀ e, outcome nodeCrawl = CrawlRejects e →
        ∃ err, (_crawl X hasteMap h).1 = Throw err ∧
               Str.includes (message error) (message err) = true ∧
               Str.includes (message e) (message err) = true)) ∧
  (∀ error, selected_crawler X h = nodeCrawl →
     outcome nodeCrawl = CrawlRejects error ∨ outcome nodeCrawl = CrawlThrows error →
     (_crawl X hasteMap h).1 = Throw error ∧
     log (_crawl X hasteMap h).2 = log h ++ [call nodeCrawl]) ∧
  (selected_crawler X h = nodeCrawl ↔
     canUseWatchman X = false ∨ useWatchman (_options h) = false).
Proof.
  cbv zeta. split; [|split].
  - intros error Hsel Hout.
    assert (Hrun : _crawl X hasteMap h =
                   retry X watchmanCrawl hasteMap error
                     (emit (ECrawl watchmanCrawl (roots (_options h)) (extensions (_options h))
                              (_ignore X h) hasteMap) h)).
    { unfold _crawl, bind, call_crawler, tell, ret. rewrite Hsel. simpl.
      by destruct Hout as [-> | ->]. }
    rewrite Hrun. unfold retry, bind, call_crawler, tell, ret, throw. simpl.
    change (_ignore X (emit _ (emit _ h))) with (_ignore X h).
    destruct (crawl X nodeCrawl (roots (_options h)) (extensions (_options h))
                (_ignore X h) hasteMap) as [e|e|m] eqn:Hnode; simpl;
      (split; [by rewrite <- !app_assoc|]); (split; [congruence|]);
      intros e' He'; [discriminate | injection He' as <- | discriminate].
    eexists. split; [done|]. apply retry_failed_names_both.
  - intros error Hsel Hout.
    unfold _crawl, bind, call_crawler, tell, ret. rewrite Hsel. simpl.
    by destruct Hout as [-> | ->].
  - unfold selected_crawler.
    destruct (canUseWatchman X), (useWatchman (_options h)); simpl; intuition congruence.
Qed.

Lemma crawl_retries_watchman_once_witness :
  ∃ err, (_crawl World.quiet _createEmptyMap (constructor World.quiet World.options)).1
         = Throw err ∧
         Str.includes (message World.ENOENT) (message err) = true ∧
         Str.includes (message World.ENOENT) (message err) = true.
Proof.
  destruct (crawl_retries_watchman_once World.quiet (constructor World.quiet World.options)
              _createEmptyMap) as (Hwatch & _ & _).
  destruct (Hwatch World.ENOENT) as (_ & _ & Hboth); [reflexivity | by left |].
  apply (Hboth World.ENOENT). reflexivity.
Defined.

(** ** What a method leaves alone

    No method but [build()] writes [_buildPromise]; the options, the cache
    path and the white list are written by the constructor only. *)

Section Frame.
Context (X : Externals).

Lemma same_instance_refl (h : HasteMap) : same_instance h h.
Proof. by repeat split. Qed.

Lemma same_instance_trans (h1 h2 h3 : HasteMap) :
  same_instance h1 h2 → same_instance h2 h3 → same_instance h1 h3.
Proof. unfold same_instance. intros (?&?&?&?&?) (?&?&?&?&?). repeat split; congruence. Qed.

Lemma framed_ret {A} (a : A) : framed (ret a).
Proof. intros h. apply same_instance_refl. Qed.

Lemma framed_throw {A} (e : Error) : framed (@throw A e).
Proof. intros h. apply same_instance_refl. Qed.

Lemma framed_lift {A} (r : Result A) : framed (lift r).
Proof. intros h. apply same_instance_refl. Qed.

Lemma framed_tell (e : Event) : framed (tell e).
Proof. intros h. by repeat split. Qed.

Lemma framed_bind {A B} (m : M A) (k : A → M B) :
  framed m → (∀ a, framed (k a)) → framed (bind m k).
Proof.
  intros Hm Hk h. unfold bind. specialize (Hm h).
  destruct (m h) as [[a|e] h']; simpl in *; [|done].
  eapply same_instance_trans; [exact Hm | apply Hk].
Qed.

Lemma framed_catch {A} (m : M A) (handler : Error → M A) :
  framed m → (∀ e, framed (handler e)) → framed (catch m handler).
Proof.
  intros Hm Hk h. unfold catch. specialize (Hm h).
  destruct (m h) as [[a|e] h']; simpl in *; [done|].
  eapply same_instance_trans; [exact Hm | apply Hk].
Qed.

Lemma framed_read : framed (read X).
Proof.
  intros h. unfold read.
  apply (framed_bind (tell _) _ (framed_tell _)). intros _.
  apply framed_bind; [apply framed_lift | intros data; apply framed_lift].
Qed.

Lemma framed_load : framed (load X).
Proof.
  intros h. unfold load.
  apply framed_catch; [|intros _; apply framed_ret].
  destruct (or_default _ _); [apply framed_ret | apply framed_read].
Qed.

Lemma framed_call_crawler (c : Crawler) (hasteMap : JSON) :
  framed (call_crawler X c hasteMap).
Proof.
  intros h. unfold call_crawler.
  apply (framed_bind (tell _) _ (framed_tell _)). intros _. apply framed_ret.
Qed.

Lemma framed_retry (c : Crawler) (hasteMap : JSON) (error : Error) :
  framed (retry X c hasteMap error).
Proof.
  destruct c; simpl; [|apply framed_throw].
  apply (framed_bind (tell _) _ (framed_tell _)). intros _.
  apply framed_bind; [apply framed_call_crawler|].
  intros [e|e|m]; [apply framed_throw | apply framed_throw | apply framed_ret].
Qed.

Lemma framed_crawl (hasteMap : JSON) : framed (_crawl X hasteMap).
Proof.
  intros h. unfold _crawl.
  apply (framed_bind (call_crawler X _ _) _ (framed_call_crawler _ _)).
  intros [e|e|m]; [apply framed_retry | apply framed_retry | apply framed_ret].
Qed.

Lemma framed_buildFileMap : framed (_buildFileMap X).
Proof. apply framed_bind; [apply framed_load | apply framed_crawl]. Qed.

Lemma framed_setModule (id : string) (module : ModuleMetaData)
    (map : gmap string ModuleMapItem) : framed (setModule X id module map).
Proof.
  intros h. unfold setModule.
  repeat case_match; simpl; by repeat split.
Qed.

Lemma framed_getWorker : framed _getWorker.
Proof. intros h. unfold _getWorker. repeat case_match; simpl; by repeat split. Qed.

Lemma framed_visit (hasteMap : InternalHasteMap) (l : Loop) (entry : string * FileMetaData) :
  framed (visit X hasteMap l entry).
Proof.
  assert (Hsubmit : ∀ l' : Loop, framed
            (bind (bind _getWorker (λ _, tell (EExtract entry.1))) (λ _, ret l'))).
  { intros l'. apply framed_bind; [|intros _; apply framed_ret].
    apply framed_bind; [apply framed_getWorker | intros _; apply framed_tell]. }
  intros h. unfold visit.
  repeat case_match; try apply same_instance_refl; apply Hsubmit.
Qed.

Lemma framed_for_in (hasteMap : InternalHasteMap) (entries : FileTable) (l : Loop) :
  framed (for_in X hasteMap entries l).
Proof.
  revert l. induction entries as [|entry rest IH]; intros l; simpl; [apply framed_ret|].
  apply framed_bind; [apply framed_visit | intros l'; apply IH].
Qed.

Lemma framed_settle (p : string) (t : Tables) : framed (settle X p t).
Proof.
  unfold settle. destruct (extraction X p) as [metadata|]; [|apply framed_ret].
  unfold on_fulfilled. repeat case_match; try apply framed_ret.
  apply framed_bind; [apply framed_setModule | intros map; apply framed_ret].
Qed.

Lemma framed_settle_all (order : list string) (t : Tables) : framed (settle_all X order t).
Proof.
  revert t. induction order as [|p rest IH]; intros t; simpl; [apply framed_ret|].
  apply framed_bind; [apply framed_settle | intros t'; apply IH].
Qed.

Lemma framed_teardown : framed teardown.
Proof. intros h. unfold teardown. destruct (_workerFarm h); simpl; by repeat split. Qed.

Lemma framed_buildHasteMap (hasteMap : InternalHasteMap) : framed (_buildHasteMap X hasteMap).
Proof.
  apply framed_bind; [apply framed_for_in | intros l].
  apply framed_bind; [apply framed_settle_all | intros t].
  apply framed_bind; [apply framed_teardown | intros _; apply framed_ret].
Qed.



End Frame.

(** ** Single flight *)

Section SingleFlight.
Context (X : Externals).







End SingleFlight.




(** ** The worker pool *)

Section Pool.
Context (X : Externals).

(** Tearing down twice is tearing down once. *)
Lemma teardown_idempotent (h : HasteMap) :
  teardown (teardown h).2 = (Return (), (teardown h).2).
Proof. unfold teardown. by destruct (_workerFarm h). Qed.

(** Tearing down when no farm was created ends nothing. *)
Lemma teardown_without_farm (h : HasteMap) :
  _workerFarm h = None → log (teardown h).2 = log h.
Proof. intros H. unfold teardown. by rewrite H. Qed.

Lemma teardown_ends_farm (h : HasteMap) (farm : nat) :
  _workerFarm h = Some farm →
  log (teardown h).2 = log h ++ [EFarmEnd farm] ∧
  _workerFarm (teardown h).2 = None ∧ _workerPromise (teardown h).2 = None.
Proof. intros H. unfold teardown. by rewrite H. Qed.

End Pool.

(** C9: with two workers, the throwing collision policy and two new files
    that both declare module [X], the metadata stage fails; the farm that
    was created for it is still referenced by the instance and was never
    ended.  With the warning policy the same build succeeds and the farm is
    ended. *)
Theorem worker_farm_survives_failed_metadata_stage :
  let crawled :=
    mkHasteMap ∅ [("/src/a.js", World.fresh 1); ("/src/b.js", World.fresh 1)] ∅ ∅ in
  let X := World.world None (λ _, CrawlResolves crawled)
             (World.extractor [("/src/a.js", Some "X"); ("/src/b.js", Some "X")]) in
  let failing := pipeline X (constructor X (World.with_policy true 2 World.options)) in
  let passing := pipeline X (constructor X (World.with_policy false 2 World.options)) in
  is_return failing.1 = false ∧
  _workerFarm failing.2 = Some 0%nat ∧
  Log.farms_created (log failing.2) = [0%nat] ∧
  Log.farms_ended (log failing.2) = [] ∧
  is_return passing.1 = true ∧
  _workerFarm passing.2 = None ∧
  Log.farms_created (log passing.2) = [0%nat] ∧
  Log.farms_ended (log passing.2) = [0%nat].
Proof. cbv zeta. repeat split; vm_compute; reflexivity. Qed.

(** ** The published index *)

(** C2: the cache holds module [X] with a generic file and an [ios] file;
    the [ios] file has changed since, and its extraction fails.  The build
    succeeds, the [ios] file is dropped from [files], and the published map
    still names it under [X], [ios]: the unchanged generic file copied the
    whole cached platform table of [X] through. *)
Theorem stale_platform_entry_outlives_its_file :
  let cached :=
    mkHasteMap ∅
      [("/src/a.js", World.seen "X" 1); ("/src/a.ios.js", World.seen "X" 1)]
      {[ "X" := {[ "g" := mkModule "/src/a.js" MODULE;
                   "ios" := mkModule "/src/a.ios.js" MODULE ]} ]} ∅ in
  let crawled :=
    mkHasteMap ∅
      [("/src/a.js", World.seen "X" 1); ("/src/a.ios.js", World.fresh 2)]
      (map cached) ∅ in
  let X := World.world (Some cached) (λ _, CrawlResolves crawled)
             (World.extractor [("/src/a.js", Some "X")]) in
  let published := fulfilled (pipeline X (constructor X World.options)).1 in
  (λ o, (moduleMap o).1 !! "X" ≫= (.!! "ios")) <$> published =
    Some (Some (mkModule "/src/a.ios.js" MODULE)) ∧
  (λ o, Files.keys (hasteFS o)) <$> published = Some ["/src/a.js"].
Proof. cbv zeta. split; vm_compute; reflexivity. Qed.

(** ** The module installer *)

Section Installer.
Context (X : Externals).

Lemma cell_insert (map : gmap string ModuleMapItem) (id id' platform : string)
    (moduleMap : ModuleMapItem) :
  cell (<[id := moduleMap]> map) id' platform =
  if decide (id = id') then moduleMap !! platform else cell map id' platform.
Proof.
  unfold cell. destruct (decide (id = id')) as [->|Hne].
  - by rewrite lookup_insert_eq.
  - by rewrite lookup_insert_ne.
Qed.

Lemma cell_table (map : gmap string ModuleMapItem) (id platform : string) :
  cell map id platform = default ∅ (map !! id) !! platform.
Proof. unfold cell. destruct (map !! id); simpl; [done | by rewrite lookup_empty]. Qed.

(** What [setModule] does, by the content of the cell it targets. *)
Lemma setModule_cases (id : string) (module : ModuleMetaData)
    (map : gmap string ModuleMapItem) (h : HasteMap) :
  let platform := platform_of X module in
  let installed := <[id := <[platform := module]> (default ∅ (map !! id))]> map in
  match cell map id platform with
  | None => setModule X id module map h = (Return installed, h)
  | Some existingModule =>
      if decide (m_path existingModule = m_path module)
      then setModule X id module map h = (Return installed, h)
      else if throwOnModuleCollision (_options h)
      then setModule X id module map h =
             (Throw (new_Error (collision_message true id module existingModule)), h)
      else setModule X id module map h =
             (Return map, emit (EWarn (collision_message false id module existingModule)) h)
  end.
Proof.
  cbv zeta. unfold setModule, cell.
  destruct (map !! id) as [moduleMap|] eqn:Hid; simpl.
  - rewrite Hid. simpl.
    destruct (moduleMap !! platform_of X module) as [existingModule|]; [|done].
    destruct (decide (m_path existingModule = m_path module)); [done|].
    by destruct (throwOnModuleCollision (_options h)).
  - rewrite lookup_insert_eq. simpl. rewrite lookup_empty.
    by rewrite insert_insert_eq.
Qed.


(** A successful call leaves the module it was given, or one with the same
    path, in the targeted cell when the policy is to throw. *)
Lemma setModule_installs (id : string) (module : ModuleMetaData)
    (map map' : gmap string ModuleMapItem) (h h' : HasteMap) :
  throwOnModuleCollision (_options h) = true →
  setModule X id module map h = (Return map', h') →
  cell map' id (platform_of X module) = Some module.
Proof.
  intros Hthrow Hset. pose proof (setModule_cases id module map h) as Hc.
  cbv zeta in Hc.
  assert (Hin : cell (<[id := <[platform_of X module := module]> (default ∅ (map !! id))]> map)
                  id (platform_of X module) = Some module).
  { rewrite cell_insert. destruct (decide (id = id)); [|done]. apply lookup_insert_eq. }
  destruct (cell map id (platform_of X module)) as [existing|].
  - destruct (decide (m_path existing = m_path module)).
    + rewrite Hc in Hset. by injection Hset as <- _.
    + rewrite Hthrow, Hset in Hc. discriminate.
  - rewrite Hc in Hset. by injection Hset as <- _.
Qed.

(** A successful call keeps the path of every occupied cell. *)
Lemma setModule_keeps_paths (id : string) (module : ModuleMetaData)
    (map map' : gmap string ModuleMapItem) (h h' : HasteMap) (id' platform' : string)
    (m : ModuleMetaData) :
  setModule X id module map h = (Return map', h') →
  cell map id' platform' = Some m →
  ∃ m', cell map' id' platform' = Some m' ∧ m_path m' = m_path m.
Proof.
  intros Hset Hcell. pose proof (setModule_cases id module map h) as Hc.
  cbv zeta in Hc.
  assert (Hin : (cell map id (platform_of X module) = None ∨
                 ∃ existing, cell map id (platform_of X module) = Some existing ∧
                             m_path existing = m_path module) →
                ∃ m', cell (<[id := <[platform_of X module := module]>
                                      (default ∅ (map !! id))]> map) id' platform' = Some m' ∧
                      m_path m' = m_path m).
  { intros Hold. rewrite cell_insert. destruct (decide (id = id')) as [<-|]; [|eauto].
    destruct (decide (platform_of X module = platform')) as [<-|Hne].
    - rewrite lookup_insert_eq. eexists. split; [done|].
      destruct Hold as [Hnone | (existing & Hex & Hpath)]; [congruence|].
      congruence.
    - rewrite lookup_insert_ne; [|done]. rewrite <- cell_table. eauto. }
  destruct (cell map id (platform_of X module)) as [existing|] eqn:Hex.
  - destruct (decide (m_path existing = m_path module)).
    + rewrite Hc in Hset. injection Hset as <- _. apply Hin. eauto.
    + destruct (throwOnModuleCollision (_options h)); rewrite Hc in Hset; [discriminate|].
      injection Hset as <- _. eauto.
  - rewrite Hc in Hset. injection Hset as <- _. apply Hin. by left.
Qed.

(** A successful call adds no cell but the one for the module it was given. *)
Lemma setModule_adds_only (id : string) (module : ModuleMetaData)
    (map map' : gmap string ModuleMapItem) (h h' : HasteMap) (id' platform' : string)
    (m : ModuleMetaData) :
  setModule X id module map h = (Return map', h') →
  cell map' id' platform' = Some m →
  cell map id' platform' = Some m ∨
  (id' = id ∧ platform' = platform_of X module ∧ m = module).
Proof.
  intros Hset Hcell. pose proof (setModule_cases id module map h) as Hc.
  cbv zeta in Hc.
  assert (Hin : ∀ m0, cell (<[id := <[platform_of X module := module]>
                                       (default ∅ (map !! id))]> map) id' platform' = Some m0 →
                cell map id' platform' = Some m0 ∨
                (id' = id ∧ platform' = platform_of X module ∧ m0 = module)).
  { intros m0. rewrite cell_insert. destruct (decide (id = id')) as [<-|]; [|by left].
    destruct (decide (platform_of X module = platform')) as [<-|Hne].
    - rewrite lookup_insert_eq. intros [= <-]. by right.
    - rewrite lookup_insert_ne; [|done]. rewrite <- cell_table. by left. }
  destruct (cell map id (platform_of X module)) as [existing|] eqn:Hex.
  - destruct (decide (m_path existing = m_path module)).
    + rewrite Hc in Hset. injection Hset as <- _. by apply Hin.
    + destruct (throwOnModuleCollision (_options h)); rewrite Hc in Hset; [discriminate|].
      injection Hset as <- _. by left.
  - rewrite Hc in Hset. injection Hset as <- _. by apply Hin.
Qed.

(** With the warning policy the installer never throws. *)
Lemma setModule_warns (id : string) (module : ModuleMetaData)
    (map : gmap string ModuleMapItem) (h : HasteMap) :
  throwOnModuleCollision (_options h) = false →
  is_return (setModule X id module map h).1 = true.
Proof.
  intros Hwarn. pose proof (setModule_cases id module map h) as Hc. cbv zeta in Hc.
  destruct (cell map id (platform_of X module)) as [existing|].
  - destruct (decide (m_path existing = m_path module)); [by rewrite Hc|].
    rewrite Hwarn in Hc. by rewrite Hc.
  - by rewrite Hc.
Qed.

End Installer.

(** ** The [files] table *)

Module FilesFacts.
Import Files.

Lemma get_update (p q : string) (g : FileMetaData → FileMetaData) (t : FileTable) :
  get q (update p g t) = if decide (p = q) then g <$> get q t else get q t.
Proof.
  induction t as [|[k f] t IH]; simpl; [by case_decide|].
  repeat (case_decide; simpl in *; simplify_eq); done.
Qed.

Lemma get_remove (p q : string) (t : FileTable) :
  get q (remove p t) = if decide (p = q) then None else get q t.
Proof.
  induction t as [|[k f] t IH]; simpl; [by case_decide|].
  repeat (case_decide; simpl in *; simplify_eq); done.
Qed.

Lemma get_is_Some (q : string) (t : FileTable) : q ∈ keys t ↔ is_Some (get q t).
Proof.
  unfold keys. induction t as [|[k f] t IH]; simpl.
  - split; [intros H; by apply elem_of_nil in H | intros [? ?]; discriminate].
  - rewrite elem_of_cons. destruct (decide (k = q)) as [->|Hne].
    + split; [by eexists | by left].
    + rewrite IH. split; [intros [?|?]; [congruence | done] | by right].
Qed.

End FilesFacts.

(** ** The loop over [files] *)

Section LoopFacts.
Context (X : Externals).

Lemma isNodeModulesDir_same (h h' : HasteMap) (p : string) :
  same_instance h h' → _isNodeModulesDir X h' p = _isNodeModulesDir X h p.
Proof. intros (_ & _ & Hw & _). unfold _isNodeModulesDir. by rewrite Hw. Qed.

Lemma copies_same (h h' : HasteMap) (hasteMap : InternalHasteMap)
    (entry : string * FileMetaData) (id : string) (moduleMetadata : ModuleMapItem) :
  same_instance h h' →
  copies X h' hasteMap entry id moduleMetadata ↔ copies X h hasteMap entry id moduleMetadata.
Proof.
  intros Hs. unfold copies. rewrite (isNodeModulesDir_same h h' _ Hs).
  destruct Hs as (-> & _). done.
Qed.

(** Submitting a path to the worker cannot fail. *)
Lemma submit_returns (filePath : string) (l : Loop) (h : HasteMap) :
  ∃ h', bind (bind _getWorker (λ _, tell (EExtract filePath))) (λ _, ret l) h = (Return l, h').
Proof.
  unfold bind, _getWorker, tell, ret.
  destruct (_workerPromise h); [by eexists|].
  destruct (bool_decide _); by eexists.
Qed.

(** One iteration either copies a cached platform table through, or leaves
    the map alone and submits at most the path it looks at. *)
Lemma visit_spec (hasteMap : InternalHasteMap) (l : Loop) (entry : string * FileMetaData)
    (h : HasteMap) :
  ∃ l' h', visit X hasteMap l entry h = (Return l', h') ∧
    ((∃ id moduleMetadata, copies X h hasteMap entry id moduleMetadata ∧
        l_map l' = <[id := moduleMetadata]> (l_map l) ∧ l_promises l' = l_promises l) ∨
     ((∀ id moduleMetadata, ¬ copies X h hasteMap entry id moduleMetadata) ∧
      l_map l' = l_map l ∧
      (l_promises l' = l_promises l ∨ l_promises l' = l_promises l ++ [entry.1]))).
Proof.
  unfold visit, copies.
  destruct (retainAllFiles (_options h) && _isNodeModulesDir X h entry.1) eqn:Hskip.
  { eexists _, _. split; [done|]. right. split; [|auto]. intros id mm (? & _). discriminate. }
  set (mocks := match mocksPattern (_options h) with
                | Some test => if test entry.1 then _ else _
                | None => _ end).
  destruct (submit_returns entry.1 (mkLoop (l_map l) mocks (l_promises l ++ [entry.1])) h)
    as [h' Hsubmit].
  destruct (f_visited entry.2) eqn:Hvisited.
  - destruct (truthy (f_id entry.2)) as [id|] eqn:Hid.
    + destruct (map hasteMap !! id) as [mm|] eqn:Hmm.
      * eexists _, _. split; [done|]. left. exists id, mm. done.
      * eexists _, _. split; [exact Hsubmit|]. right. simpl. split; [|auto].
        intros id' mm' (_ & _ & [= <-] & ?). congruence.
    + eexists _, _. split; [done|]. right. simpl. split; [|auto].
      intros id' mm' (_ & _ & ? & _). discriminate.
  - eexists _, _. split; [exact Hsubmit|]. right. simpl. split; [|auto].
    intros id' mm' (_ & ? & _). discriminate.
Qed.

(** The loop never throws; its map holds exactly the cached platform tables
    of the files it copies through, and it submits only keys of [files]. *)
Lemma for_in_spec (h0 : HasteMap) (hasteMap : InternalHasteMap) (entries : FileTable) :
  ∀ (l : Loop) (h : HasteMap), same_instance h0 h →
  ∃ l' h', for_in X hasteMap entries l h = (Return l', h') ∧
    (∀ id mm, l_map l' !! id = Some mm →
       l_map l !! id = Some mm ∨
       ∃ entry, entry ∈ entries ∧ copies X h0 hasteMap entry id mm) ∧
    (∀ id mm, (l_map l !! id = Some mm ∧ map hasteMap !! id = Some mm) ∨
              (∃ entry, entry ∈ entries ∧ copies X h0 hasteMap entry id mm) →
       l_map l' !! id = Some mm) ∧
    (∃ ps, l_promises l' = l_promises l ++ ps ∧ ∀ p, p ∈ ps → p ∈ Files.keys entries).
Proof.
  induction entries as [|entry rest IH]; intros l h Hs.
  { eexists _, _. split; [done|]. split; [by left|]. split.
    - intros id mm [[? _] | (entry & Hin & _)]; [done | by apply elem_of_nil in Hin].
    - exists []. split; [by rewrite app_nil_r | intros p Hp; by apply elem_of_nil in Hp]. }
  destruct (visit_spec hasteMap l entry h) as (l1 & h1 & Hvisit & Hcase).
  assert (Hs1 : same_instance h0 h1).
  { eapply same_instance_trans; [exact Hs|].
    pose proof (framed_visit X hasteMap l entry h) as Hf. by rewrite Hvisit in Hf. }
  destruct (IH l1 h1 Hs1) as (l' & h' & Hrest & Hfrom & Hinto & ps & Hps & Hkeys).
  exists l', h'. split; [simpl; unfold bind; by rewrite Hvisit|].
  assert (Hcopy : ∀ id mm, copies X h hasteMap entry id mm ↔ copies X h0 hasteMap entry id mm).
  { intros id mm. by apply copies_same. }
  destruct Hcase as [(id1 & mm1 & Hc1 & Hmap1 & Hp1) | (Hnone & Hmap1 & Hp1)].
  - split; [|split].
    + intros id mm Hl. destruct (Hfrom id mm Hl) as [Hl1 | (e & He & Hce)].
      * rewrite Hmap1 in Hl1. destruct (decide (id1 = id)) as [<-|Hne].
        -- rewrite lookup_insert_eq in Hl1. injection Hl1 as <-.
           right. exists entry. split; [by left | by apply Hcopy].
        -- rewrite lookup_insert_ne in Hl1 by done. by left.
      * right. exists e. split; [by right | done].
    + intros id mm Hor. apply Hinto.
      assert (Hm1 : map hasteMap !! id1 = Some mm1) by apply Hc1.
      destruct Hor as [[Hl Hm] | (e & He & Hce)].
      * left. split; [|done]. rewrite Hmap1.
        destruct (decide (id1 = id)) as [<-|Hne];
          [rewrite lookup_insert_eq; congruence | by rewrite lookup_insert_ne].
      * apply elem_of_cons in He as [-> | He]; [|right; eauto].
        left. apply Hcopy in Hce.
        assert (id1 = id) as <-.
        { destruct Hc1 as (_ & _ & Hi1 & _), Hce as (_ & _ & Hi & _). congruence. }
        assert (mm1 = mm) as <-.
        { destruct Hce as (_ & _ & _ & Hm). congruence. }
        split; [by rewrite Hmap1, lookup_insert_eq | done].
    + exists ps. split; [by rewrite Hps, Hp1|].
      intros p Hp. unfold Files.keys. simpl. right. by apply Hkeys.
  - split; [|split].
    + intros id mm Hl. destruct (Hfrom id mm Hl) as [Hl1 | (e & He & Hce)].
      * left. by rewrite <- Hmap1.
      * right. exists e. split; [by right | done].
    + intros id mm Hor. apply Hinto. destruct Hor as [[Hl Hm] | (e & He & Hce)].
      * left. by rewrite Hmap1.
      * apply elem_of_cons in He as [-> | He]; [|right; eauto].
        exfalso. apply (Hnone id mm). by apply Hcopy.
    + destruct Hp1 as [Hp1 | Hp1].
      * exists ps. split; [by rewrite Hps, Hp1|].
        intros p Hp. unfold Files.keys. simpl. right. by apply Hkeys.
      * exists (entry.1 :: ps). split; [by rewrite Hps, Hp1, <- app_assoc|].
        intros p Hp. unfold Files.keys. simpl.
        apply elem_of_cons in Hp as [-> | Hp]; [by left | right; by apply Hkeys].
Qed.

(** The loop of [_buildHasteMap], started on a fresh [map] and [mocks]. *)
Lemma loop_spec (h : HasteMap) (hasteMap : InternalHasteMap) :
  ∃ h', for_in X hasteMap (files hasteMap) (mkLoop ∅ ∅ []) h =
          (Return (loop_result X h hasteMap), h') ∧
    same_instance h h' ∧
    (∀ id mm, l_map (loop_result X h hasteMap) !! id = Some mm ↔
       ∃ entry, entry ∈ files hasteMap ∧ copies X h hasteMap entry id mm) ∧
    (∀ p, p ∈ submitted X h hasteMap → p ∈ Files.keys (files hasteMap)).
Proof.
  destruct (for_in_spec h hasteMap (files hasteMap) (mkLoop ∅ ∅ []) h
              (same_instance_refl h)) as (l' & h' & Hrun & Hfrom & Hinto & ps & Hps & Hkeys).
  assert (Hl : loop_result X h hasteMap = l') by (unfold loop_result; by rewrite Hrun).
  exists h'. rewrite Hl. split; [done|]. split.
  { pose proof (framed_for_in X hasteMap (files hasteMap) (mkLoop ∅ ∅ []) h) as Hf.
    by rewrite Hrun in Hf. }
  split.
  - intros id mm. split.
    + intros Hm. destruct (Hfrom id mm Hm) as [Hempty | ?]; [|done].
      simpl in Hempty. by rewrite lookup_empty in Hempty.
    + intros He. apply Hinto. by right.
  - intros p Hp. unfold submitted in Hp. rewrite Hl, Hps in Hp. simpl in Hp. by apply Hkeys.
Qed.

End LoopFacts.

(** ** The handlers of the extraction promises *)

Section SettleFacts.
Context (X : Externals).

Lemma update_update (p : string) (g1 g2 : FileMetaData → FileMetaData) (t : FileTable) :
  Files.update p g2 (Files.update p g1 t) = Files.update p (λ f, g2 (g1 f)) t.
Proof.
  induction t as [|[k f] t IH]; simpl; [done|].
  destruct (decide (k = p)) as [->|Hne]; simpl.
  - rewrite decide_True by done. by rewrite IH.
  - rewrite decide_False by done. by rewrite IH.
Qed.

(** The three ways a handler can run: the rejection handler; the fulfilment
    handler with a module to install; the fulfilment handler without. *)
Lemma settle_spec (p : string) (t : Tables) (h : HasteMap) :
  (extraction X p = None ∧ settle X p t h = (Return (on_rejected p t), h)) ∨
  (∃ md g, extraction X p = Some md ∧
     (∀ f, f_visited (g f) = true ∧
           f_dependencies (g f) = or_default (md_dependencies md) []) ∧
     ((∃ id module, truthy (md_id md) = Some id ∧ md_module md = Some module ∧
         settle X p t h =
         bind (setModule X id module (t_map t))
              (λ map, ret (mkTables (Files.update p g (t_files t)) map)) h) ∨
      ((truthy (md_id md) = None ∨ md_module md = None) ∧
       settle X p t h = (Return (mkTables (Files.update p g (t_files t)) (t_map t)), h)))).
Proof.
  unfold settle. destruct (extraction X p) as [md|]; [right | by left].
  unfold on_fulfilled.
  destruct (truthy (md_id md)) as [id|] eqn:Hid;
    [destruct (md_module md) as [module|] eqn:Hmodule|].
  - eexists md, _. split; [done|]. split; [|left; exists id, module].
    2:{ split; [done|]. split; [done|]. by rewrite !update_update. }
    done.
  - eexists md, _. split; [done|]. split; [|right; split; [by right|]].
    2:{ unfold ret. by rewrite update_update. }
    done.
  - eexists md, _. split; [done|]. split; [|right; split; [by left|]].
    2:{ unfold ret. by rewrite update_update. }
    done.
Qed.

(** One handler, seen from the map and from the files table. *)
Lemma settle_step (p : string) (t t' : Tables) (h h' : HasteMap) :
  settle X p t h = (Return t', h') →
  (∀ id platform m, cell (t_map t) id platform = Some m →
     ∃ m', cell (t_map t') id platform = Some m' ∧ m_path m' = m_path m) ∧
  (∀ id platform m, cell (t_map t') id platform = Some m →
     cell (t_map t) id platform = Some m ∨
     ∃ md, extraction X p = Some md ∧ truthy (md_id md) = Some id ∧
           md_module md = Some m ∧ platform = platform_of X m) ∧
  (throwOnModuleCollision (_options h) = true →
   ∀ md id module, extraction X p = Some md → truthy (md_id md) = Some id →
     md_module md = Some module →
     cell (t_map t') id (platform_of X module) = Some module) ∧
  (extraction X p = None → t_files t' = Files.remove p (t_files t)) ∧
  (∀ md, extraction X p = Some md →
     ∃ g, (∀ f, f_visited (g f) = true ∧
                f_dependencies (g f) = or_default (md_dependencies md) []) ∧
          t_files t' = Files.update p g (t_files t)).
Proof.
  intros Hrun.
  destruct (settle_spec p t h) as [[Hnone Heq] | (md & g & Hsome & Hg & Hcase)].
  { rewrite Heq in Hrun. injection Hrun as <- <-. rewrite Hnone. simpl.
    split; [eauto|]. split; [eauto|]. split; [discriminate|]. split; [done|]. discriminate. }
  rewrite Hsome.
  destruct Hcase as [(id & module & Hid & Hmodule & Heq) | (Hno & Heq)].
  - rewrite Heq in Hrun. unfold bind in Hrun.
    destruct (setModule X id module (t_map t) h) as [[map'|e] h1] eqn:Hset; [|discriminate].
    unfold ret in Hrun. injection Hrun as <- <-. simpl.
    split; [intros; by eapply setModule_keeps_paths|]. split.
    { intros id' pl' m Hc.
      destruct (setModule_adds_only X _ _ _ _ _ _ _ _ _ Hset Hc) as [? | (-> & -> & ->)];
        [by left|].
      right. exists md. done. }
    split.
    { intros Hthrow md' id' module' [= <-] Hid' Hmodule'.
      assert (id' = id) as -> by congruence. assert (module' = module) as -> by congruence.
      by eapply setModule_installs. }
    split; [discriminate|]. intros md' [= <-]. eauto.
  - rewrite Heq in Hrun. injection Hrun as <- <-. simpl.
    split; [eauto|]. split; [eauto|]. split.
    { intros _ md' id' module' [= <-] Hid' Hmodule'. destruct Hno; congruence. }
    split; [discriminate|]. intros md' [= <-]. eauto.
Qed.

Lemma settle_all_cons (p : string) (rest : list string) (t t' : Tables) (h h' : HasteMap) :
  settle_all X (p :: rest) t h = (Return t', h') →
  ∃ t1 h1, settle X p t h = (Return t1, h1) ∧ settle_all X rest t1 h1 = (Return t', h') ∧
           _options h1 = _options h.
Proof.
  simpl. unfold bind. intros Hrun.
  pose proof (framed_settle X p t h) as (Ho & _).
  destruct (settle X p t h) as [[t1|e] h1]; [|discriminate].
  exists t1, h1. done.
Qed.

(** Handlers keep the path of every occupied cell. *)
Lemma settle_all_keeps_paths (order : list string) (t t' : Tables) (h h' : HasteMap)
    (id platform : string) (m : ModuleMetaData) :
  settle_all X order t h = (Return t', h') →
  cell (t_map t) id platform = Some m →
  ∃ m', cell (t_map t') id platform = Some m' ∧ m_path m' = m_path m.
Proof.
  revert t h m. induction order as [|p rest IH]; intros t h m Hrun Hcell.
  { injection Hrun as <- _. eauto. }
  apply settle_all_cons in Hrun as (t1 & h1 & Hstep & Hrest & _).
  destruct (settle_step p t t1 h h1 Hstep) as (Hkeep & _).
  destruct (Hkeep id platform m Hcell) as (m1 & Hcell1 & Hpath1).
  destruct (IH t1 h1 m1 Hrest Hcell1) as (m' & Hcell' & Hpath').
  exists m'. split; [done | congruence].
Qed.


(** Handlers add no cell but those of the modules they install. *)
Lemma settle_all_adds_only (order : list string) (t t' : Tables) (h h' : HasteMap)
    (id platform : string) (m : ModuleMetaData) :
  settle_all X order t h = (Return t', h') →
  cell (t_map t') id platform = Some m →
  cell (t_map t) id platform = Some m ∨
  ∃ q md, q ∈ order ∧ extraction X q = Some md ∧ truthy (md_id md) = Some id ∧
          md_module md = Some m ∧ platform = platform_of X m.
Proof.
  revert t h. induction order as [|p rest IH]; intros t h Hrun Hcell.
  { injection Hrun as <- _. by left. }
  apply settle_all_cons in Hrun as (t1 & h1 & Hstep & Hrest & _).
  destruct (settle_step p t t1 h h1 Hstep) as (_ & Hadd & _).
  destruct (IH t1 h1 Hrest Hcell) as [Hcell1 | (q & md & Hq & ?)].
  - destruct (Hadd id platform m Hcell1) as [? | (md & ?)]; [by left|].
    right. exists p, md. split; [by left | done].
  - right. exists q, md. split; [by right | done].
Qed.

(** A path whose extraction failed is gone from the files table. *)
Lemma settle_all_removes (order : list string) (t t' : Tables) (h h' : HasteMap)
    (p : string) :
  settle_all X order t h = (Return t', h') →
  (p ∈ order ∨ Files.get p (t_files t) = None) → extraction X p = None →
  Files.get p (t_files t') = None.
Proof.
  intros Hrun Hin Hnone. revert t h Hrun Hin.
  induction order as [|q rest IH]; intros t h Hrun Hin.
  { injection Hrun as <- _. destruct Hin as [Hin|]; [by apply elem_of_nil in Hin | done]. }
  apply settle_all_cons in Hrun as (t1 & h1 & Hstep & Hrest & _).
  destruct (settle_step q t t1 h h1 Hstep) as (_ & _ & _ & Hrem & Hupd).
  apply (IH t1 h1 Hrest).
  destruct (decide (q = p)) as [-> | Hne].
  - right. rewrite (Hrem Hnone), FilesFacts.get_remove. by rewrite decide_True.
  - destruct Hin as [Hin | Hget]; [apply elem_of_cons in Hin as [-> | Hin]; [done | by left]|].
    right. destruct (extraction X q) as [md|] eqn:Hq.
    + destruct (Hupd md eq_refl) as (g & _ & ->).
      rewrite FilesFacts.get_update. by rewrite decide_False.
    + rewrite (Hrem eq_refl), FilesFacts.get_remove. by rewrite decide_False.
Qed.

(** A path whose extraction succeeded stays in the files table, visited and
    with the dependencies the worker returned. *)
Lemma settle_all_visits (order : list string) (t t' : Tables) (h h' : HasteMap)
    (q : string) (md : WorkerMetadata) :
  settle_all X order t h = (Return t', h') →
  extraction X q = Some md →
  (q ∈ order ∧ is_Some (Files.get q (t_files t))) ∨
  (∃ f, Files.get q (t_files t) = Some f ∧ f_visited f = true ∧
        f_dependencies f = or_default (md_dependencies md) []) →
  ∃ f, Files.get q (t_files t') = Some f ∧ f_visited f = true ∧
       f_dependencies f = or_default (md_dependencies md) [].
Proof.
  intros Hrun Hmd. revert t h Hrun.
  induction order as [|p rest IH]; intros t h Hrun Hstart.
  { injection Hrun as <- _.
    destruct Hstart as [[Hin _] | ?]; [by apply elem_of_nil in Hin | done]. }
  apply settle_all_cons in Hrun as (t1 & h1 & Hstep & Hrest & _).
  destruct (settle_step p t t1 h h1 Hstep) as (_ & _ & _ & Hrem & Hupd).
  apply (IH t1 h1 Hrest).
  destruct (decide (p = q)) as [-> | Hne].
  - right. destruct (Hupd md Hmd) as (g & Hg & ->).
    rewrite FilesFacts.get_update, decide_True by done.
    assert (Hsome : is_Some (Files.get q (t_files t))).
    { destruct Hstart as [[_ ?] | (f & -> & _)]; [done | by eexists]. }
    destruct Hsome as [f ->]. exists (g f). split; [done | apply Hg].
  - assert (Hget : Files.get q (t_files t1) = Files.get q (t_files t)).
    { destruct (extraction X p) as [mdp|] eqn:Hp.
      - destruct (Hupd mdp eq_refl) as (g & _ & ->).
        rewrite FilesFacts.get_update. by rewrite decide_False.
      - rewrite (Hrem eq_refl), FilesFacts.get_remove. by rewrite decide_False. }
    rewrite Hget. destruct Hstart as [[Hin Hs] | ?]; [|by right].
    left. split; [|done]. apply elem_of_cons in Hin as [-> | Hin]; [done | done].
Qed.


(** With the warning policy no handler throws. *)
Lemma settle_all_warns (order : list string) (t : Tables) (h : HasteMap) :
  throwOnModuleCollision (_options h) = false →
  is_return (settle_all X order t h).1 = true.
Proof.
  revert t h. induction order as [|p rest IH]; intros t h Hwarn; [done|].
  simpl. unfold bind.
  pose proof (framed_settle X p t h) as (Ho & _).
  destruct (settle_spec p t h) as [[_ Heq] | (md & g & _ & _ & Hcase)].
  { rewrite Heq. by apply IH. }
  destruct Hcase as [(id & module & _ & _ & Heq) | (_ & Heq)].
  - rewrite Heq in *. unfold bind in *.
    pose proof (setModule_warns X id module (t_map t) h Hwarn) as Hret.
    destruct (setModule X id module (t_map t) h) as [[map'|e] h1]; [|discriminate].
    simpl in *. apply IH. by rewrite Ho.
  - rewrite Heq. by apply IH.
Qed.

End SettleFacts.

(** ** The metadata stage as a whole *)

Section BuildFacts.
Context (X : Externals).

(** A successful metadata stage is the loop followed by the handlers. *)
Lemma buildHasteMap_returns (hasteMap published : InternalHasteMap) (h h' : HasteMap) :
  _buildHasteMap X hasteMap h = (Return published, h') →
  ∃ h1 t h2,
    _options h1 = _options h ∧
    settle_all X (completion_order X (submitted X h hasteMap))
      (mkTables (files hasteMap) (l_map (loop_result X h hasteMap))) h1 = (Return t, h2) ∧
    published = mkHasteMap (clocks hasteMap) (t_files t) (t_map t)
                  (l_mocks (loop_result X h hasteMap)).
Proof.
  intros Hrun. destruct (loop_spec X h hasteMap) as (h1 & Hloop & (Ho & _) & _).
  unfold _buildHasteMap, bind in Hrun. rewrite Hloop in Hrun. fold (submitted X h hasteMap) in Hrun.
  destruct (settle_all X _ _ h1) as [[t|e] h2] eqn:Hsettle; [|discriminate].
  unfold teardown, ret in Hrun. injection Hrun as <- _.
  by exists h1, t, h2.
Qed.

(** With the warning policy the metadata stage cannot fail. *)
Lemma buildHasteMap_warns (hasteMap : InternalHasteMap) (h : HasteMap) :
  throwOnModuleCollision (_options h) = false →
  is_return (_buildHasteMap X hasteMap h).1 = true.
Proof.
  intros Hwarn. destruct (loop_spec X h hasteMap) as (h1 & Hloop & (Ho & _) & _).
  unfold _buildHasteMap, bind. rewrite Hloop.
  pose proof (settle_all_warns X (completion_order X (l_promises (loop_result X h hasteMap)))
                (mkTables (files hasteMap) (l_map (loop_result X h hasteMap))) h1) as Hret.
  destruct (settle_all X _ _ h1) as [[t|e] h2]; [done|].
  rewrite Ho in Hret. by specialize (Hret Hwarn).
Qed.


End BuildFacts.




(** C5, as stated, fails for the mocks table: a file matching the mocks
    pattern is registered in [mocks] before its extraction is requested,
    and the entry stays when the extraction fails and the file is dropped
    from [files]. *)
Lemma mock_of_unreadable_file_is_published :
  let crawled := mkHasteMap ∅ [("/src/__mocks__/a.js", World.fresh 1)] ∅ ∅ in
  let X := World.world None (λ _, CrawlResolves crawled) (World.extractor []) in
  let r := pipeline X (constructor X World.options) in
  extraction X "/src/__mocks__/a.js" = None ∧
  Log.extractions (log r.2) = ["/src/__mocks__/a.js"] ∧
  (λ o, (moduleMap o).2 !! "a") <$> fulfilled r.1 = Some (Some "/src/__mocks__/a.js") ∧
  (λ o, Files.keys (hasteFS o)) <$> fulfilled r.1 = Some [].
Proof. cbv zeta. repeat split; vm_compute; reflexivity. Qed.

(** C5, amended: for every file path submitted to a worker in the metadata
    stage, if the worker reports an error for that path, then the handler
    deletes the path from the files table and does nothing else: it calls
    no installer, emits nothing and throws nothing.  With the warning
    policy the stage then always succeeds; and whenever the stage succeeds,
    the path is absent from the published files, every entry of the
    published map was copied from the cached map or installed from a file
    whose extraction succeeded, every submitted file whose extraction
    succeeded is in the published files, visited and with its dependencies,
    and the published mocks are those registered by the loop (the entry of
    a failed path included). *)
Theorem failed_extraction_drops_file_silently (X : Externals) (h : HasteMap)
    (hasteMap : InternalHasteMap) (filePath : string) :
  extraction X filePath = None →
  (∀ t h1, settle X filePath t h1 =
           (Return (mkTables (Files.remove filePath (t_files t)) (t_map t)), h1)) ∧
  (throwOnModuleCollision (_options h) = false →
   is_return (_buildHasteMap X hasteMap h).1 = true) ∧
  (filePath ∈ submitted X h hasteMap →
   completion_order X (submitted X h hasteMap) ≡ₚ submitted X h hasteMap →
   ∀ published h', _buildHasteMap X hasteMap h = (Return published, h') →
     Files.get filePath (files published) = None ∧
     (∀ id platform module, cell (map published) id platform = Some module →
        cell (l_map (loop_result X h hasteMap)) id platform = Some module ∨
        ∃ q md, q ∈ submitted X h hasteMap ∧ q ≠ filePath ∧
                extraction X q = Some md ∧ truthy (md_id md) = Some id ∧
                md_module md = Some module ∧ platform = platform_of X module) ∧
     (∀ q md, q ∈ submitted X h hasteMap → extraction X q = Some md →
        ∃ f, Files.get q (files published) = Some f ∧ f_visited f = true ∧
             f_dependencies f = or_default (md_dependencies md) []) ∧
     mocks published = l_mocks (loop_result X h hasteMap)).
Proof.
  intros Hfail. split; [|split].
  - intros t h1. unfold settle. by rewrite Hfail.
  - apply buildHasteMap_warns.
  - intros Hin Hperm published h' Hrun.
    destruct (buildHasteMap_returns X _ _ _ _ Hrun) as (h1 & t & h2 & Ho & Hsettle & ->).
    destruct (loop_spec X h hasteMap) as (_ & _ & _ & _ & Hkeys).
    simpl. split; [|split; [|split; [|done]]].
    + eapply settle_all_removes; [exact Hsettle | | done]. left. by rewrite Hperm.
    + intros id platform module Hcell.
      destruct (settle_all_adds_only X _ _ _ _ _ _ _ _ Hsettle Hcell)
        as [? | (q & md & Hq & Hmd & ?)]; [by left|].
      right. exists q, md. rewrite Hperm in Hq. split; [done|]. split; [|done].
      intros ->. congruence.
    + intros q md Hq Hmd. eapply settle_all_visits; [exact Hsettle | exact Hmd |].
      left. split; [by rewrite Hperm|]. simpl. apply FilesFacts.get_is_Some. by apply Hkeys.
Qed.

Lemma failed_extraction_drops_file_silently_witness :
  let crawled :=
    mkHasteMap ∅ [("/src/a.js", World.fresh 1); ("/src/b.js", World.fresh 1)] ∅ ∅ in
  let X := World.world None (λ _, CrawlResolves crawled)
             (World.extractor [("/src/a.js", Some "A")]) in
  let h := constructor X World.options in
  Files.get "/src/b.js"
    (files (or_default (fulfilled (_buildHasteMap X crawled h).1) crawled)) = None ∧
  is_return (_buildHasteMap X crawled h).1 = true.
Proof.
  cbv zeta.
  set (crawled := mkHasteMap ∅ _ ∅ ∅).
  set (X := World.world None _ _).
  set (h := constructor X _).
  destruct (failed_extraction_drops_file_silently X h crawled "/src/b.js" eq_refl)
    as (_ & Hreturns & Hbuild).
  split; [|by apply Hreturns].
  destruct (_buildHasteMap X crawled h) as [[published|e] h'] eqn:Hrun;
    [|apply (f_equal (λ r, is_return r.1)) in Hrun; vm_compute in Hrun; discriminate].
  cbn [fst fulfilled or_default].
  apply (Hbuild ltac:(vm_compute; right; left) (Permutation_refl _) published h' eq_refl).
Defined.

(** ** Scenarios

    The pipeline run on small repositories. *)

Module Scenarios.
Import World.

(** An empty project builds to empty tables, and the cache file is written. *)
Example empty_project :
  let X := world None (λ _, CrawlResolves nothing) (extractor []) in
  (run_build X options).1 =
    Return {| hasteFS := []; moduleMap := (∅, ∅); __hasteMapForTest := None |} ∧
  omap (λ e, match e with EWriteFile p _ => Some p | _ => None end)
       (log (run_build X options).2) = [_cachePath (constructor X options)].
Proof. cbv zeta. split; vm_compute; reflexivity. Qed.

(** A single module lands in the generic platform cell of its id. *)
Example single_module :
  let crawled := mkHasteMap ∅ [("/src/a.js", fresh 7)] ∅ ∅ in
  let X := world None (λ _, CrawlResolves crawled) (extractor [("/src/a.js", Some "A")]) in
  cells (run_build X options).1 "A" = [("g", "/src/a.js")] ∧
  hasteFS <$> fulfilled (run_build X options).1 =
    Some [("/src/a.js", mkFile (Some "A") 7 true [])].
Proof. cbv zeta. split; vm_compute; reflexivity. Qed.

(** Platform variants of one module do not collide. *)
Example platform_extension_no_collision :
  let crawled :=
    mkHasteMap ∅ [("/src/P.ios.js", fresh 1); ("/src/P.android.js", fresh 1)] ∅ ∅ in
  let X := world None (λ _, CrawlResolves crawled)
             (extractor [("/src/P.ios.js", Some "P"); ("/src/P.android.js", Some "P")]) in
  let r := run_build X (with_policy true 1 options) in
  is_return r.1 = true ∧
  (λ o, (cell (moduleMap o).1 "P" "ios", cell (moduleMap o).1 "P" "android"))
    <$> fulfilled r.1 =
  Some (Some (mkModule "/src/P.ios.js" MODULE), Some (mkModule "/src/P.android.js" MODULE)).
Proof. cbv zeta. split; vm_compute; reflexivity. Qed.

(** Two files with one module id: with the warning policy the first one
    stays and one warning is printed; with the throwing policy the build is
    rejected. *)
Example collision_by_policy :
  let crawled := mkHasteMap ∅ [("/src/a.js", fresh 1); ("/src/b.js", fresh 1)] ∅ ∅ in
  let X := world None (λ _, CrawlResolves crawled)
             (extractor [("/src/a.js", Some "X"); ("/src/b.js", Some "X")]) in
  let warned := run_build X (with_policy false 1 options) in
  let thrown := run_build X (with_policy true 1 options) in
  cells warned.1 "X" = [("g", "/src/a.js")] ∧
  length (Log.warnings (log warned.2)) = 1%nat ∧
  is_return thrown.1 = false ∧
  Log.warnings (log thrown.2) = [].
Proof. cbv zeta. repeat split; vm_compute; reflexivity. Qed.

(** An unchanged file is not extracted again. *)
Example incremental :
  let cached :=
    mkHasteMap ∅ [("/src/a.js", seen "A" 1); ("/src/b.js", seen "B" 1)]
      {[ "A" := {[ "g" := mkModule "/src/a.js" MODULE ]};
         "B" := {[ "g" := mkModule "/src/b.js" MODULE ]} ]} ∅ in
  let crawled :=
    mkHasteMap ∅ [("/src/a.js", seen "A" 1); ("/src/b.js", fresh 2)] (map cached) ∅ in
  let X := world (Some cached) (λ _, CrawlResolves crawled)
             (extractor [("/src/a.js", Some "A"); ("/src/b.js", Some "B")]) in
  let r := run_build X options in
  Log.extractions (log r.2) = ["/src/b.js"] ∧
  (λ o, Files.get "/src/a.js" (hasteFS o)) <$> fulfilled r.1 = Some (Some (seen "A" 1)).
Proof. cbv zeta. split; vm_compute; reflexivity. Qed.

End Scenarios.

(** * Further properties *)

(** ** The name part of the cache file *)

Section SanitizedName.

Lemma includes_char (c : ascii) (s : string) :
  Str.includes (String c EmptyString) s = true → c ∈ list_ascii_of_string s.
Proof.
  induction s as [|d s IH]; simpl; [discriminate|].
  destruct (ascii_dec c d) as [->|Hne].
  - intros _. by left.
  - destruct s; simpl in *; intros H; right; by apply IH.
Qed.

Lemma replace_nonword_chars (name : string) (c : ascii) :
  c ∈ list_ascii_of_string (Str.replace_nonword name) →
  Str.is_word_char c = true ∨ c = "-"%char.
Proof.
  unfold Str.replace_nonword. induction name as [|d name IH]; simpl.
  - intros H. by apply elem_of_nil in H.
  - intros H. apply elem_of_cons in H as [-> | H]; [|by apply IH].
    destruct (Str.is_word_char d) eqn:Hd; [by left | by right].
Qed.

End SanitizedName.

(** X1: in the file name [getCacheFilePath] builds, the part made from the
    project name has the length of the name, contains no character other
    than word characters and [-] (so no path separator), and is the name
    itself when the name has word characters only. *)
Theorem sanitized_name_is_a_plain_file_name (name : string) :
  String.length (Str.replace_nonword name) = String.length name ∧
  (∀ c, Str.is_word_char c = false → c ≠ "-"%char →
        Str.includes (String c EmptyString) (Str.replace_nonword name) = false) ∧
  ((∀ c, c ∈ list_ascii_of_string name → Str.is_word_char c = true) →
   Str.replace_nonword name = name).
Proof.
  split; [|split].
  - unfold Str.replace_nonword. induction name as [|d name IH]; simpl; [done | by rewrite IH].
  - intros c Hc Hdash.
    destruct (Str.includes (String c EmptyString) (Str.replace_nonword name)) eqn:Hin; [|done].
    apply includes_char, replace_nonword_chars in Hin as [Hw | ->].
    all: congruence.
  - unfold Str.replace_nonword. induction name as [|d name IH]; simpl; [done|].
    intros Hall. rewrite (Hall d) by by left. f_equal. apply IH.
    intros c Hc. apply Hall. by right.
Qed.

Lemma sanitized_name_is_a_plain_file_name_witness :
  Str.replace_nonword "haste_map_1" = "haste_map_1" ∧
  Str.replace_nonword "@scoped/package" = "-scoped-package".
Proof.
  split; [|reflexivity].
  apply (sanitized_name_is_a_plain_file_name "haste_map_1").
  intros c Hc. simpl in Hc.
  repeat (apply elem_of_cons in Hc as [-> | Hc]; [reflexivity|]).
  by apply elem_of_nil in Hc.
Defined.

(** ** The white list, read from the kept paths *)

(** X3: on an instance made by the constructor, with configured names that
    are matched as literal text, a path with a [node_modules] segment that
    [_isNodeModulesDir] does not exclude passes through a listed package:
    it reads [<before><sep>node_modules<sep><name><after>] with [<name>]
    configured and [<after>] empty or starting with a separator.  The names
    may hold separators. *)
Theorem kept_node_modules_path_is_whitelisted (X : Externals) (options : Options)
    (names : list string) (p : string) :
  o_providesModuleNodeModules options = Some names →
  String_match X
    ("(" +:+ escapePathSeparator X (NODE_MODULES X) +:+
     "(?:" +:+ Str.join "|" names +:+ ")(?=$|" +:+
     escapePathSeparator X (String (path_sep X) EmptyString) +:+ "))") p =
    literal_matches X names p →
  Str.includes (NODE_MODULES X) p = true →
  _isNodeModulesDir X (constructor X options) p = false →
  ∃ before n after,
    n ∈ names ∧ p = before +:+ NODE_MODULES X +:+ n +:+ after ∧
    (after = EmptyString ∨ ∃ rest, after = String (path_sep X) rest).
Proof.
  intros Hnames Hengine Hinc Hkept. unfold _isNodeModulesDir in Hkept.
  rewrite Hinc in Hkept. simpl in Hkept. rewrite Hnames in Hkept.
  destruct names as [|n0 names]; [discriminate|].
  change (getWhiteList X (Some (n0 :: names)))
    with (Some (whitelist_source X (n0 :: names))) in Hkept.
  cbv beta iota in Hkept. unfold whitelist_source in Hkept. rewrite Hengine in Hkept.
  unfold literal_matches in Hkept.
  destruct (scan X (n0 :: names) p 0) as [|m ms] eqn:Hscan; [discriminate|].
  destruct (scan_sound X (n0 :: names) p 0 m) as (before & after & n & Hn & Hp & Hb).
  { rewrite Hscan. by left. }
  by exists before, n, after.
Qed.

Lemma kept_node_modules_path_is_whitelisted_witness :
  ∃ before n after,
    n ∈ ["@org/pkg"] ∧
    "/proj/node_modules/@org/pkg/index.js" =
      before +:+ NODE_MODULES World.quiet +:+ n +:+ after ∧
    (after = EmptyString ∨ ∃ rest, after = String (path_sep World.quiet) rest).
Proof.
  apply (kept_node_modules_path_is_whitelisted World.quiet
           (World.with_names ["@org/pkg"] World.options) ["@org/pkg"]
           "/proj/node_modules/@org/pkg/index.js"); reflexivity.
Defined.

(** ** The loop, seen from the instance *)

Section LoopState.
Context (X : Externals).

Lemma skipped_same (h h' : HasteMap) (entry : string * FileMetaData) :
  same_instance h h' → skipped X h' entry = skipped X h entry.
Proof.
  intros Hs. unfold skipped. rewrite (isNodeModulesDir_same X h h' _ Hs).
  by destruct Hs as (-> & _).
Qed.

Lemma needs_extraction_same (h h' : HasteMap) (hasteMap : InternalHasteMap)
    (entry : string * FileMetaData) :
  same_instance h h' → needs_extraction X h' hasteMap entry = needs_extraction X h hasteMap entry.
Proof. intros Hs. unfold needs_extraction. by rewrite (skipped_same h h' _ Hs). Qed.

Lemma registers_mock_same (h h' : HasteMap) (entry : string * FileMetaData) :
  same_instance h h' → registers_mock X h' entry = registers_mock X h entry.
Proof.
  intros Hs. unfold registers_mock. rewrite (skipped_same h h' _ Hs).
  by destruct Hs as (-> & _).
Qed.

Lemma same_instance_submit (h : HasteMap) (p : string) : same_instance h (submit h p).
Proof.
  unfold submit. eapply same_instance_trans; [apply (framed_getWorker h)|]. by repeat split.
Qed.

(** One iteration: the mocks entry it writes, whether it submits the path,
    and what that does to the instance. *)
Lemma visit_state (hasteMap : InternalHasteMap) (l : Loop) (entry : string * FileMetaData)
    (h : HasteMap) :
  ∃ m, visit X hasteMap l entry h =
    (Return (mkLoop m
       (if registers_mock X h entry
        then <[path_stem X entry.1 := entry.1]> (l_mocks l) else l_mocks l)
       (if needs_extraction X h hasteMap entry
        then l_promises l ++ [entry.1] else l_promises l)),
     if needs_extraction X h hasteMap entry then submit h entry.1 else h).
Proof.
  assert (Hsubmit : ∀ l' : Loop, bind (bind _getWorker (λ _, tell (EExtract entry.1)))
                                      (λ _, ret l') h = (Return l', submit h entry.1)).
  { intros l'. unfold bind, submit, tell, ret, _getWorker.
    destruct (_workerPromise h); [done|]. by destruct (bool_decide _). }
  unfold visit, needs_extraction, registers_mock, skipped.
  destruct (retainAllFiles (_options h) && _isNodeModulesDir X h entry.1); simpl.
  { exists (l_map l). by destruct l. }
  assert (Hmocks : match mocksPattern (_options h) with
                   | Some test => if test entry.1
                                  then <[path_stem X entry.1 := entry.1]> (l_mocks l)
                                  else l_mocks l
                   | None => l_mocks l
                   end =
                   if match mocksPattern (_options h) with
                      | Some test => test entry.1 | None => false end
                   then <[path_stem X entry.1 := entry.1]> (l_mocks l) else l_mocks l).
  { by destruct (mocksPattern (_options h)). }
  rewrite Hmocks.
  destruct (f_visited entry.2); simpl.
  - destruct (truthy (f_id entry.2)) as [id|]; [|by eexists].
    destruct (map hasteMap !! id) as [mm|] eqn:Hmm.
    + rewrite bool_decide_eq_false_2 by congruence. by eexists.
    + rewrite bool_decide_eq_true_2 by done. rewrite Hsubmit. by eexists.
  - rewrite Hsubmit. by eexists.
Qed.

(** The whole loop: it submits, in enumeration order, the paths of the
    entries that need extraction, and writes the mocks of the entries that
    register one, later entries over earlier ones. *)
Lemma for_in_state (h0 : HasteMap) (hasteMap : InternalHasteMap) (entries : FileTable) :
  ∀ (l : Loop) (h : HasteMap), same_instance h0 h →
  ∃ m, for_in X hasteMap entries l h =
    (Return (mkLoop m
       (foldl (λ mocks entry,
                 if registers_mock X h0 entry
                 then <[path_stem X entry.1 := entry.1]> mocks else mocks)
              (l_mocks l) entries)
       (l_promises l ++
        (filter (λ entry, needs_extraction X h0 hasteMap entry = true) entries).*1)),
     foldl submit h
       (filter (λ entry, needs_extraction X h0 hasteMap entry = true) entries).*1).
Proof.
  induction entries as [|entry rest IH]; intros l h Hs.
  { exists (l_map l). simpl. rewrite app_nil_r. by destruct l. }
  destruct (visit_state hasteMap l entry h) as [m1 Hvisit].
  rewrite (needs_extraction_same h0 h _ _ Hs), (registers_mock_same h0 h _ Hs) in Hvisit.
  simpl. unfold bind. rewrite Hvisit.
  destruct (needs_extraction X h0 hasteMap entry) eqn:Hneeds.
  - rewrite filter_cons_True by done.
    destruct (IH (mkLoop m1
        (if registers_mock X h0 entry
         then <[path_stem X entry.1 := entry.1]> (l_mocks l) else l_mocks l)
        (l_promises l ++ [entry.1])) (submit h entry.1)) as [m Hrest].
    { eapply same_instance_trans; [exact Hs | apply same_instance_submit]. }
    exists m. rewrite Hrest. simpl. by rewrite <- app_assoc.
  - rewrite filter_cons_False by congruence.
    destruct (IH (mkLoop m1
        (if registers_mock X h0 entry
         then <[path_stem X entry.1 := entry.1]> (l_mocks l) else l_mocks l)
        (l_promises l)) h Hs) as [m Hrest].
    exists m. by rewrite Hrest.
Qed.

(** Submitting with a worker function already made only logs the request. *)
Lemma submit_all_started (h : HasteMap) (ps : list string) (workerFn : WorkerFn) :
  _workerPromise h = Some workerFn →
  foldl submit h ps = extend h (EExtract <$> ps).
Proof.
  revert h. induction ps as [|p ps IH]; intros h Hw; simpl.
  - unfold extend. rewrite app_nil_r. by destruct h.
  - assert (Hp : submit h p = extend h [EExtract p]).
    { unfold submit, _getWorker. by rewrite Hw. }
    rewrite Hp, (IH (extend h [EExtract p])) by done.
    unfold extend. simpl. by rewrite <- app_assoc.
Qed.

(** The first submission makes the worker function: the in-process worker,
    or a new farm. *)
Lemma submit_all_fresh (h : HasteMap) (p : string) (ps : list string) :
  _workerPromise h = None →
  foldl submit h (p :: ps) =
  if bool_decide (maxWorkers (_options h) ≤ 1)
  then extend (set_worker (Some InProcess) (_workerFarm h) h) (EExtract <$> p :: ps)
  else extend
         (mkInstance (_options h) (_cachePath h) (_whitelist h) (_buildPromise h)
            (Some (InFarm (farms h))) (Some (farms h)) (promises h) (S (farms h)) (log h))
         (EFarmCreate (farms h) (maxWorkers (_options h)) :: (EExtract <$> p :: ps)).
Proof.
  intros Hw. simpl.
  destruct (bool_decide (maxWorkers (_options h) ≤ 1)) eqn:Hmax.
  - rewrite (submit_all_started _ ps InProcess).
    + unfold submit, _getWorker, extend. rewrite Hw, Hmax. simpl. by rewrite <- app_assoc.
    + unfold submit, _getWorker. by rewrite Hw, Hmax.
  - rewrite (submit_all_started _ ps (InFarm (farms h))).
    + unfold submit, _getWorker, extend. rewrite Hw, Hmax. simpl.
      by rewrite <- !app_assoc.
    + unfold submit, _getWorker. by rewrite Hw, Hmax.
Qed.

End LoopState.

(** ** The metadata stage, seen from the instance *)

Section StageState.
Context (X : Externals).

Lemma extend_nil (h : HasteMap) : extend h [] = h.
Proof. unfold extend. rewrite app_nil_r. by destruct h. Qed.

Lemma extend_extend (h : HasteMap) (a b : list Event) :
  extend (extend h a) b = extend h (a ++ b).
Proof. unfold extend. simpl. by rewrite <- app_assoc. Qed.

(** A handler changes the instance by at most one warning. *)
Lemma settle_extends (p : string) (t : Tables) (h : HasteMap) :
  ∃ msgs, (settle X p t h).2 = extend h (EWarn <$> msgs).
Proof.
  assert (Hsame : ∃ msgs, h = extend h (EWarn <$> msgs)).
  { exists []. by rewrite extend_nil. }
  destruct (settle_spec X p t h) as [[_ ->] | (md & g & _ & _ & Hcase)]; [done|].
  destruct Hcase as [(id & module & _ & _ & ->) | (_ & ->)]; [|done].
  unfold bind. pose proof (setModule_cases X id module (t_map t) h) as Hc. cbv zeta in Hc.
  destruct (cell (t_map t) id (platform_of X module)) as [existing|].
  - destruct (decide (m_path existing = m_path module)); [by rewrite Hc|].
    destruct (throwOnModuleCollision (_options h)); rewrite Hc; [done|].
    by exists [collision_message false id module existing].
  - by rewrite Hc.
Qed.

Lemma settle_all_extends (order : list string) (t : Tables) (h : HasteMap) :
  ∃ msgs, (settle_all X order t h).2 = extend h (EWarn <$> msgs).
Proof.
  revert t h. induction order as [|p rest IH]; intros t h.
  { exists []. by rewrite extend_nil. }
  simpl. unfold bind. destruct (settle_extends p t h) as [msgs Hp].
  destruct (settle X p t h) as [[t1|e] h1]; simpl in Hp; subst h1.
  - destruct (IH t1 (extend h (EWarn <$> msgs))) as [msgs' Hrest].
    rewrite Hrest, extend_extend, <- fmap_app. by eexists.
  - by eexists.
Qed.

(** The loop of [_buildHasteMap] as a filter. *)
Lemma loop_state (h : HasteMap) (hasteMap : InternalHasteMap) :
  submitted X h hasteMap =
    (filter (λ entry, needs_extraction X h hasteMap entry = true) (files hasteMap)).*1 ∧
  l_mocks (loop_result X h hasteMap) =
    foldl (λ mocks entry, if registers_mock X h entry
                          then <[path_stem X entry.1 := entry.1]> mocks else mocks)
          ∅ (files hasteMap) ∧
  (for_in X hasteMap (files hasteMap) (mkLoop ∅ ∅ []) h).2 =
    foldl submit h (submitted X h hasteMap).
Proof.
  destruct (for_in_state X h hasteMap (files hasteMap) (mkLoop ∅ ∅ []) h
              (same_instance_refl h)) as [m Hrun].
  unfold submitted, loop_result. rewrite Hrun. done.
Qed.

(** The instance after the metadata stage: the submissions of the loop,
    then the warnings of the handlers, then the teardown if no handler
    threw. *)
Lemma buildHasteMap_state (hasteMap : InternalHasteMap) (h : HasteMap) :
  ∃ msgs,
    (_buildHasteMap X hasteMap h).2 =
    let settled := extend (foldl submit h (submitted X h hasteMap)) (EWarn <$> msgs) in
    if is_return (_buildHasteMap X hasteMap h).1 then (teardown settled).2 else settled.
Proof.
  destruct (loop_spec X h hasteMap) as (hl & Hloop & _).
  destruct (loop_state h hasteMap) as (_ & _ & Hstate). rewrite Hloop in Hstate. simpl in Hstate.
  unfold _buildHasteMap, bind. rewrite Hloop. fold (submitted X h hasteMap).
  destruct (settle_all_extends (completion_order X (submitted X h hasteMap))
              (mkTables (files hasteMap) (l_map (loop_result X h hasteMap))) hl)
    as [msgs Hsettle].
  exists msgs. rewrite <- Hstate.
  destruct (settle_all X _ _ hl) as [[t|e] h2]; simpl in *; by subst h2.
Qed.

Lemma log_extend (h : HasteMap) (events : list Event) : log (extend h events) = log h ++ events.
Proof. done. Qed.

(** The log after the submissions of the loop. *)
Lemma submit_all_log (h : HasteMap) (ps : list string) :
  ∃ created,
    log (foldl submit h ps) = log h ++ created ++ (EExtract <$> ps) ∧
    (created = [] ∨ created = [EFarmCreate (farms h) (maxWorkers (_options h))]) ∧
    (_workerPromise h = None →
     created = (if bool_decide (maxWorkers (_options h) ≤ 1) || bool_decide (ps = [])
                then [] else [EFarmCreate (farms h) (maxWorkers (_options h))]) ∧
     _workerFarm (foldl submit h ps) =
       (if bool_decide (maxWorkers (_options h) ≤ 1) || bool_decide (ps = [])
        then _workerFarm h else Some (farms h))).
Proof.
  destruct (_workerPromise h) as [w|] eqn:Hw.
  { exists []. rewrite (submit_all_started h ps w Hw). split; [done|]. split; [by left|done]. }
  destruct ps as [|p ps].
  { exists []. simpl. rewrite app_nil_r. split; [done|]. split; [by left|].
    intros _. by rewrite orb_true_r. }
  rewrite (submit_all_fresh h p ps Hw).
  destruct (bool_decide (maxWorkers (_options h) ≤ 1)); simpl.
  - exists []. split; [done|]. split; [by left | done].
  - exists [EFarmCreate (farms h) (maxWorkers (_options h))].
    split; [done|]. split; [by right | done].
Qed.

End StageState.

Section LogViews.

Lemma extractions_app (a b : list Event) :
  Log.extractions (a ++ b) = Log.extractions a ++ Log.extractions b.
Proof. apply omap_app. Qed.

Lemma farms_created_app (a b : list Event) :
  Log.farms_created (a ++ b) = Log.farms_created a ++ Log.farms_created b.
Proof. apply omap_app. Qed.

Lemma farms_ended_app (a b : list Event) :
  Log.farms_ended (a ++ b) = Log.farms_ended a ++ Log.farms_ended b.
Proof. apply omap_app. Qed.

Lemma views_of_warnings (msgs : list string) :
  Log.extractions (EWarn <$> msgs) = [] ∧ Log.farms_created (EWarn <$> msgs) = [] ∧
  Log.farms_ended (EWarn <$> msgs) = [] ∧ written (EWarn <$> msgs) = [].
Proof. induction msgs as [|m msgs IH]; [done | exact IH]. Qed.

Lemma views_of_extractions (ps : list string) :
  Log.extractions (EExtract <$> ps) = ps ∧ Log.farms_created (EExtract <$> ps) = [] ∧
  Log.farms_ended (EExtract <$> ps) = [] ∧ written (EExtract <$> ps) = [].
Proof.
  induction ps as [|p ps (IH1 & IH2 & IH3 & IH4)]; [done|].
  repeat split; [|done..]. change (p :: Log.extractions (EExtract <$> ps) = p :: ps).
  by rewrite IH1.
Qed.

Lemma teardown_log (h : HasteMap) :
  log (teardown h).2 =
  log h ++ match _workerFarm h with Some farm => [EFarmEnd farm] | None => [] end.
Proof. unfold teardown. destruct (_workerFarm h); simpl; [done | by rewrite app_nil_r]. Qed.

Lemma same_key_same_entry (t : FileTable) (p : string) (f1 f2 : FileMetaData) :
  NoDup (Files.keys t) → (p, f1) ∈ t → (p, f2) ∈ t → f1 = f2.
Proof.
  unfold Files.keys. induction t as [|[q f] t IH]; intros Hnd H1 H2.
  { by apply elem_of_nil in H1. }
  simpl in Hnd. apply NoDup_cons in Hnd as [Hq Hnd].
  assert (Hkey : ∀ g, (q, g) ∈ t → False).
  { intros g Hg. apply Hq. apply (list_elem_of_fmap_2 fst) in Hg. exact Hg. }
  apply elem_of_cons in H1 as [H1 | H1]; apply elem_of_cons in H2 as [H2 | H2].
  - congruence.
  - injection H1 as -> ->. destruct (Hkey f2 H2).
  - injection H2 as -> ->. destruct (Hkey f1 H1).
  - by apply IH.
Qed.

End LogViews.

(** X4: the loop of [_buildHasteMap] hands to the worker exactly the
    entries of [files] that are not skipped and are either unvisited or
    visited with a module id that has no table in the cached map, in
    enumeration order; these are all the extraction requests of the stage,
    whatever its outcome.  In particular a visited file without a module
    id, or with one the cached map knows, is never extracted again. *)
Theorem only_stale_files_are_extracted (X : Externals) (h : HasteMap)
    (hasteMap : InternalHasteMap) :
  submitted X h hasteMap =
    (filter (λ entry, needs_extraction X h hasteMap entry = true) (files hasteMap)).*1 ∧
  Log.extractions (log (_buildHasteMap X hasteMap h).2) =
    Log.extractions (log h) ++ submitted X h hasteMap ∧
  (∀ p f, NoDup (Files.keys (files hasteMap)) → (p, f) ∈ files hasteMap →
     f_visited f = true →
     (truthy (f_id f) = None ∨
      ∃ id, truthy (f_id f) = Some id ∧ is_Some (map hasteMap !! id)) →
     p ∉ submitted X h hasteMap).
Proof.
  destruct (loop_state X h hasteMap) as (Hsub & _ & _).
  split; [done|]. split.
  - destruct (buildHasteMap_state X hasteMap h) as [msgs Hstate]. cbv zeta in Hstate.
    destruct (submit_all_log h (submitted X h hasteMap)) as (created & Hlog & Hcreated & _).
    assert (Hsettled : Log.extractions
              (log (extend (foldl submit h (submitted X h hasteMap)) (EWarn <$> msgs))) =
            Log.extractions (log h) ++ submitted X h hasteMap).
    { rewrite log_extend, Hlog, !extractions_app.
      rewrite (proj1 (views_of_warnings msgs)), (proj1 (views_of_extractions _)).
      destruct Hcreated as [-> | ->]; simpl; by rewrite app_nil_r. }
    rewrite Hstate. destruct (is_return _); [|done].
    rewrite teardown_log, extractions_app, Hsettled.
    destruct (_workerFarm _); simpl; by rewrite app_nil_r.
  - intros p f Hnd Hin Hvisited Hid Hp. rewrite Hsub in Hp.
    apply list_elem_of_fmap in Hp as ([q g] & Hq & Hg). simpl in Hq. subst q.
    apply list_elem_of_filter in Hg as [Hneeds Hg].
    assert (g = f) as -> by (by eapply same_key_same_entry).
    unfold needs_extraction in Hneeds. simpl in Hneeds. rewrite Hvisited in Hneeds.
    simpl in Hneeds. apply andb_true_iff in Hneeds as [_ Hneeds].
    destruct Hid as [Hid | (id & Hid & [mm Hmm])]; rewrite Hid in Hneeds; [done|].
    apply bool_decide_eq_true in Hneeds. congruence.
Qed.

Lemma only_stale_files_are_extracted_witness :
  let cached :=
    mkHasteMap ∅ [("/src/a.js", World.seen "A" 1); ("/src/b.js", World.fresh 2)]
      {[ "A" := {[ "g" := mkModule "/src/a.js" MODULE ]} ]} ∅ in
  let h := constructor World.quiet World.options in
  ("/src/a.js" ∉ submitted World.quiet h cached) ∧
  submitted World.quiet h cached = ["/src/b.js"].
Proof.
  cbv zeta. split; [|reflexivity].
  apply (proj2 (proj2 (only_stale_files_are_extracted World.quiet
           (constructor World.quiet World.options)
           (mkHasteMap ∅ [("/src/a.js", World.seen "A" 1); ("/src/b.js", World.fresh 2)]
              {[ "A" := {[ "g" := mkModule "/src/a.js" MODULE ]} ]} ∅)))
           "/src/a.js" (World.seen "A" 1)).
  - simpl. apply NoDup_cons. split; [|apply NoDup_singleton].
    intros H. apply list_elem_of_singleton in H. discriminate.
  - by left.
  - reflexivity.
  - right. exists "A". split; [reflexivity|]. by eexists.
Defined.

(** X5: a metadata stage started with no worker function creates at most
    one farm: none when [maxWorkers] is at most 1 or when no file needs
    extraction, and otherwise one, at the first submission.  When the stage
    succeeds that farm is ended, once, and the instance holds neither a
    farm nor a worker function afterwards. *)
Theorem one_farm_per_stage_ended_on_success (X : Externals) (h : HasteMap)
    (hasteMap : InternalHasteMap) :
  _workerPromise h = None → _workerFarm h = None →
  let created :=
    if bool_decide (maxWorkers (_options h) ≤ 1) || bool_decide (submitted X h hasteMap = [])
    then [] else [farms h] in
  Log.farms_created (log (_buildHasteMap X hasteMap h).2) =
    Log.farms_created (log h) ++ created ∧
  (is_return (_buildHasteMap X hasteMap h).1 = true →
   Log.farms_ended (log (_buildHasteMap X hasteMap h).2) =
     Log.farms_ended (log h) ++ created ∧
   _workerFarm (_buildHasteMap X hasteMap h).2 = None ∧
   _workerPromise (_buildHasteMap X hasteMap h).2 = None).
Proof.
  intros Hw Hf. cbv zeta.
  destruct (buildHasteMap_state X hasteMap h) as [msgs Hstate]. cbv zeta in Hstate.
  destruct (submit_all_log h (submitted X h hasteMap)) as (created & Hlog & _ & Hfresh).
  destruct (Hfresh Hw) as [Hcreated Hfarm]. clear Hfresh.
  set (settled := extend (foldl submit h (submitted X h hasteMap)) (EWarn <$> msgs)) in *.
  assert (Hsettled_farm : _workerFarm settled =
            if bool_decide (maxWorkers (_options h) ≤ 1) ||
               bool_decide (submitted X h hasteMap = [])
            then None else Some (farms h)).
  { unfold settled. simpl. by rewrite Hfarm, Hf. }
  assert (Hsettled_created : Log.farms_created (log settled) =
            Log.farms_created (log h) ++
            if bool_decide (maxWorkers (_options h) ≤ 1) ||
               bool_decide (submitted X h hasteMap = [])
            then [] else [farms h]).
  { unfold settled. rewrite log_extend, Hlog, !farms_created_app.
    rewrite (proj1 (proj2 (views_of_warnings msgs))),
      (proj1 (proj2 (views_of_extractions _))), !app_nil_r, Hcreated.
    by destruct (_ || _). }
  assert (Hsettled_ended : Log.farms_ended (log settled) = Log.farms_ended (log h)).
  { unfold settled. rewrite log_extend, Hlog, !farms_ended_app.
    rewrite (proj1 (proj2 (proj2 (views_of_warnings msgs)))),
      (proj1 (proj2 (proj2 (views_of_extractions _)))), !app_nil_r, Hcreated.
    destruct (_ || _); simpl; by rewrite app_nil_r. }
  rewrite Hstate. destruct (is_return _).
  - split.
    + rewrite teardown_log, farms_created_app, Hsettled_created.
      destruct (_workerFarm settled); simpl; by rewrite app_nil_r.
    + intros _. split; [|done].
      rewrite teardown_log, farms_ended_app, Hsettled_ended, Hsettled_farm.
      by destruct (_ || _).
  - split; [done | discriminate].
Qed.

Lemma one_farm_per_stage_ended_on_success_witness :
  let crawled :=
    mkHasteMap ∅ [("/src/a.js", World.fresh 1); ("/src/b.js", World.fresh 1)] ∅ ∅ in
  let X := World.world None (λ _, CrawlResolves crawled)
             (World.extractor [("/src/a.js", Some "A"); ("/src/b.js", Some "B")]) in
  let h := constructor X (World.with_policy true 4 World.options) in
  Log.farms_created (log (_buildHasteMap X crawled h).2) = [0%nat] ∧
  Log.farms_ended (log (_buildHasteMap X crawled h).2) = [0%nat].
Proof.
  cbv zeta.
  set (crawled := mkHasteMap ∅ _ ∅ ∅).
  set (X := World.world None _ _).
  set (h := constructor X _).
  destruct (one_farm_per_stage_ended_on_success X h crawled eq_refl eq_refl)
    as [Hcreated Hended].
  split; [exact Hcreated|]. apply Hended. vm_compute. reflexivity.
Defined.

(** ** The mocks table *)

Section MocksFacts.
Context (X : Externals) (h : HasteMap).

Lemma register_fold_from (entries : FileTable) (m : gmap string string) (stem p : string) :
  foldl (λ mocks entry, if registers_mock X h entry
                        then <[path_stem X entry.1 := entry.1]> mocks else mocks)
        m entries !! stem = Some p →
  m !! stem = Some p ∨
  ∃ f, (p, f) ∈ entries ∧ registers_mock X h (p, f) = true ∧ path_stem X p = stem.
Proof.
  revert m. induction entries as [|[q f] rest IH]; intros m Hm; simpl in Hm; [by left|].
  destruct (IH _ Hm) as [Hhere | (g & Hin & ?)]; [|right; exists g; split; [by right | done]].
  destruct (registers_mock X h (q, f)) eqn:Hreg; [|by left].
  simpl in Hhere. destruct (decide (path_stem X q = stem)) as [Heq | Hne].
  - rewrite Heq, lookup_insert_eq in Hhere. injection Hhere as ->.
    right. exists f. split; [by left | done].
  - rewrite lookup_insert_ne in Hhere by done. by left.
Qed.

Lemma register_fold_other (entries : FileTable) (m : gmap string string) (stem : string) :
  (∀ e, e ∈ entries → registers_mock X h e = true → path_stem X e.1 ≠ stem) →
  foldl (λ mocks entry, if registers_mock X h entry
                        then <[path_stem X entry.1 := entry.1]> mocks else mocks)
        m entries !! stem = m !! stem.
Proof.
  revert m. induction entries as [|e rest IH]; intros m Hall; simpl; [done|].
  rewrite IH by (intros e' He'; apply Hall; by right).
  destruct (registers_mock X h e) eqn:Hreg; [|done].
  apply lookup_insert_ne. apply Hall; [by left | done].
Qed.

End MocksFacts.

(** X6: every entry of the published mocks table names a file of the
    crawled [files] table that the loop did not skip and that matches the
    mocks pattern, under the stem of its path; when several such files
    share a stem, the one enumerated last is the one published. *)
Theorem mocks_name_matching_files_and_the_last_wins (X : Externals) (h h' : HasteMap)
    (hasteMap published : InternalHasteMap) :
  _buildHasteMap X hasteMap h = (Return published, h') →
  (∀ stem p, mocks published !! stem = Some p →
     ∃ f test, (p, f) ∈ files hasteMap ∧ skipped X h (p, f) = false ∧
               mocksPattern (_options h) = Some test ∧ test p = true ∧
               path_stem X p = stem) ∧
  (∀ pre p f post, files hasteMap = pre ++ (p, f) :: post →
     registers_mock X h (p, f) = true →
     (∀ e, e ∈ post → registers_mock X h e = true → path_stem X e.1 ≠ path_stem X p) →
     mocks published !! path_stem X p = Some p).
Proof.
  intros Hrun.
  destruct (buildHasteMap_returns X _ _ _ _ Hrun) as (h1 & t & h2 & _ & _ & ->). simpl.
  destruct (loop_state X h hasteMap) as (_ & -> & _). split.
  - intros stem p Hp.
    destruct (register_fold_from X h _ _ _ _ Hp) as [Hempty | (f & Hin & Hreg & Hstem)].
    { by rewrite lookup_empty in Hempty. }
    unfold registers_mock in Hreg. apply andb_true_iff in Hreg as [Hskip Htest].
    apply negb_true_iff in Hskip.
    destruct (mocksPattern (_options h)) as [test|] eqn:Hpattern; [|discriminate].
    by exists f, test.
  - intros pre p f post -> Hreg Hlast.
    rewrite foldl_app. simpl. rewrite Hreg.
    rewrite (register_fold_other X h post _ (path_stem X p) Hlast).
    apply lookup_insert_eq.
Qed.

Lemma mocks_name_matching_files_and_the_last_wins_witness :
  let crawled :=
    mkHasteMap ∅ [("/a/__mocks__/fs.js", World.fresh 1); ("/b/__mocks__/fs.js", World.fresh 1)]
      ∅ ∅ in
  let X := World.world None (λ _, CrawlResolves crawled)
             (World.extractor [("/a/__mocks__/fs.js", None); ("/b/__mocks__/fs.js", None)]) in
  let h := constructor X World.options in
  mocks (or_default (fulfilled (_buildHasteMap X crawled h).1) crawled) !! "fs" =
    Some "/b/__mocks__/fs.js".
Proof.
  cbv zeta.
  set (crawled := mkHasteMap ∅ _ ∅ ∅).
  set (X := World.world None _ _).
  set (h := constructor X _).
  destruct (_buildHasteMap X crawled h) as [[published|e] h'] eqn:Hrun;
    [|apply (f_equal (λ r, is_return r.1)) in Hrun; vm_compute in Hrun; discriminate].
  cbn [fst fulfilled or_default].
  apply (proj2 (mocks_name_matching_files_and_the_last_wins X h h' crawled published Hrun)
           [("/a/__mocks__/fs.js", World.fresh 1)] "/b/__mocks__/fs.js" (World.fresh 1) []).
  - reflexivity.
  - reflexivity.
  - intros e He. by apply elem_of_nil in He.
Defined.

(** ** The files table after the handlers *)

Section RecordFacts.
Context (X : Externals).

Lemma update_ext (p : string) (g1 g2 : FileMetaData → FileMetaData) (t : FileTable) :
  (∀ f, g1 f = g2 f) → Files.update p g1 t = Files.update p g2 t.
Proof.
  intros Hext. induction t as [|[k f] t IH]; simpl; [done|].
  rewrite IH. destruct (decide (k = p)); [by rewrite Hext | done].
Qed.

(** What one handler does to the files table. *)
Lemma settle_files (p : string) (t t' : Tables) (h h' : HasteMap) :
  settle X p t h = (Return t', h') →
  t_files t' = match extraction X p with
               | Some metadata => Files.update p (recorded metadata) (t_files t)
               | None => Files.remove p (t_files t)
               end.
Proof.
  unfold settle. destruct (extraction X p) as [md|]; [|by intros [= <- _]].
  unfold on_fulfilled, recorded.
  destruct (truthy (md_id md)) as [id|]; [destruct (md_module md) as [module|]|].
  - unfold bind, ret. destruct (setModule X id module (t_map t) h) as [[map'|e] h1];
      [|discriminate].
    intros [= <- _]. simpl. by rewrite !update_update.
  - intros [= <- _]. simpl. by rewrite update_update.
  - intros [= <- _]. simpl. by rewrite update_update.
Qed.

Lemma settle_get (p q : string) (t t' : Tables) (h h' : HasteMap) :
  settle X p t h = (Return t', h') →
  Files.get q (t_files t') =
  if decide (p = q)
  then match extraction X p with
       | Some metadata => recorded metadata <$> Files.get q (t_files t)
       | None => None
       end
  else Files.get q (t_files t).
Proof.
  intros Hrun. rewrite (settle_files p t t' h h' Hrun).
  destruct (extraction X p);
    [rewrite FilesFacts.get_update | rewrite FilesFacts.get_remove]; by destruct (decide (p = q)).
Qed.

(** A path that no handler is for keeps its record. *)
Lemma settle_all_untouched (order : list string) (t t' : Tables) (h h' : HasteMap)
    (q : string) :
  settle_all X order t h = (Return t', h') → q ∉ order →
  Files.get q (t_files t') = Files.get q (t_files t).
Proof.
  revert t h. induction order as [|p rest IH]; intros t h Hrun Hq.
  { by injection Hrun as <- _. }
  apply settle_all_cons in Hrun as (t1 & h1 & Hstep & Hrest & _).
  apply not_elem_of_cons in Hq as [Hne Hq].
  rewrite (IH t1 h1 Hrest Hq), (settle_get p q _ _ _ _ Hstep).
  by rewrite decide_False.
Qed.

(** No handler adds a file or changes a modification time. *)
Lemma settle_all_mtime (order : list string) (t t' : Tables) (h h' : HasteMap)
    (q : string) (f' : FileMetaData) :
  settle_all X order t h = (Return t', h') →
  Files.get q (t_files t') = Some f' →
  ∃ f, Files.get q (t_files t) = Some f ∧ f_mtime f' = f_mtime f.
Proof.
  revert t h. induction order as [|p rest IH]; intros t h Hrun Hq.
  { injection Hrun as <- _. eauto. }
  apply settle_all_cons in Hrun as (t1 & h1 & Hstep & Hrest & _).
  destruct (IH t1 h1 Hrest Hq) as (f1 & Hf1 & Hm1).
  rewrite (settle_get p q _ _ _ _ Hstep) in Hf1.
  destruct (decide (p = q)) as [->|]; [|eauto].
  destruct (extraction X q) as [md|]; [|discriminate].
  destruct (Files.get q (t_files t)) as [f|]; [|discriminate].
  injection Hf1 as <-. exists f. split; [done|]. by rewrite Hm1.
Qed.

(** A file whose extraction succeeded ends with a record made by the
    fulfilment handler. *)
Lemma settle_all_recorded (Q : FileMetaData → Prop) (order : list string) (t t' : Tables)
    (h h' : HasteMap) (q : string) (md : WorkerMetadata) :
  (∀ f, Q (recorded md f)) →
  settle_all X order t h = (Return t', h') →
  extraction X q = Some md →
  (q ∈ order ∧ is_Some (Files.get q (t_files t))) ∨
  (∃ f, Files.get q (t_files t) = Some f ∧ Q f) →
  ∃ f, Files.get q (t_files t') = Some f ∧ Q f.
Proof.
  intros HQ Hrun Hmd. revert t h Hrun.
  induction order as [|p rest IH]; intros t h Hrun Hstart.
  { injection Hrun as <- _.
    destruct Hstart as [[Hin _] | ?]; [by apply elem_of_nil in Hin | done]. }
  apply settle_all_cons in Hrun as (t1 & h1 & Hstep & Hrest & _).
  apply (IH t1 h1 Hrest). rewrite (settle_get p q _ _ _ _ Hstep).
  destruct (decide (p = q)) as [-> | Hne].
  - right. rewrite Hmd.
    assert (Hsome : is_Some (Files.get q (t_files t))).
    { destruct Hstart as [[_ ?] | (f & -> & _)]; [done | by eexists]. }
    destruct Hsome as [f ->]. exists (recorded md f). done.
  - destruct Hstart as [[Hin Hs] | ?]; [|by right].
    left. split; [|done]. apply elem_of_cons in Hin as [-> | Hin]; done.
Qed.

(** A file that is in the table and whose handler, if it has one, is the
    fulfilment handler stays in the table. *)
Lemma settle_all_stays (order : list string) (t t' : Tables) (h h' : HasteMap) (q : string) :
  settle_all X order t h = (Return t', h') →
  is_Some (Files.get q (t_files t)) →
  (q ∈ order → extraction X q ≠ None) →
  is_Some (Files.get q (t_files t')).
Proof.
  intros Hrun Hsome Hok. destruct (decide (q ∈ order)) as [Hin | Hout].
  - destruct (extraction X q) as [md|] eqn:Hmd; [|by destruct (Hok Hin)].
    destruct (settle_all_recorded (λ _, True) order t t' h h' q md) as (f & -> & _); eauto.
  - by rewrite (settle_all_untouched order t t' h h' q Hrun Hout).
Qed.

Lemma settle_all_app (pre rest : list string) (t : Tables) (h : HasteMap) :
  settle_all X (pre ++ rest) t h = bind (settle_all X pre t) (settle_all X rest) h.
Proof.
  revert t h. induction pre as [|p pre IH]; intros t h; simpl; [done|].
  unfold bind. destruct (settle X p t h) as [[t1|e] h1]; [|done].
  rewrite IH. done.
Qed.

(** After a successful call of the installer its cell is occupied. *)
Lemma setModule_occupies (id : string) (module : ModuleMetaData)
    (map map' : gmap string ModuleMapItem) (h h' : HasteMap) :
  setModule X id module map h = (Return map', h') →
  is_Some (cell map' id (platform_of X module)).
Proof.
  intros Hset. pose proof (setModule_cases X id module map h) as Hc. cbv zeta in Hc.
  assert (Hin : is_Some (cell (<[id := <[platform_of X module := module]>
                                         (default ∅ (map !! id))]> map)
                           id (platform_of X module))).
  { rewrite cell_insert, decide_True by done. rewrite lookup_insert_eq. by eexists. }
  destruct (cell map id (platform_of X module)) as [existing|] eqn:Hex.
  - destruct (decide (m_path existing = m_path module)).
    + rewrite Hc in Hset. by injection Hset as <- _.
    + destruct (throwOnModuleCollision (_options h)); rewrite Hc in Hset; [discriminate|].
      injection Hset as <- _. by rewrite Hex.
  - rewrite Hc in Hset. by injection Hset as <- _.
Qed.

Lemma settle_all_occupies (order : list string) (t t' : Tables) (h h' : HasteMap)
    (p : string) (md : WorkerMetadata) (id : string) (module : ModuleMetaData) :
  settle_all X order t h = (Return t', h') →
  p ∈ order → extraction X p = Some md → truthy (md_id md) = Some id →
  md_module md = Some module →
  is_Some (cell (t_map t') id (platform_of X module)).
Proof.
  intros Hrun Hin Hmd Hid Hmodule. revert t h Hrun.
  induction order as [|q rest IH]; intros t h Hrun; [by apply elem_of_nil in Hin|].
  apply settle_all_cons in Hrun as (t1 & h1 & Hstep & Hrest & _).
  apply elem_of_cons in Hin as [<- | Hin]; [|by apply (IH Hin t1 h1)].
  assert (Hocc : is_Some (cell (t_map t1) id (platform_of X module))).
  { unfold settle in Hstep. rewrite Hmd in Hstep. unfold on_fulfilled in Hstep.
    rewrite Hid, Hmodule in Hstep. unfold bind, ret in Hstep.
    destruct (setModule X id module (t_map t) h) as [[map'|e] h2] eqn:Hset; [|discriminate].
    injection Hstep as <- _. simpl. by eapply setModule_occupies. }
  destruct Hocc as [m Hm].
  destruct (settle_all_keeps_paths X _ _ _ _ _ _ _ _ Hrest Hm) as (m' & -> & _). by eexists.
Qed.

End RecordFacts.

(** X7: the path of an occupied cell is final.  Whatever a cell of the new
    map holds when some of the handlers have run, be it copied from the
    cache or installed by one of them, the published map holds a module
    with the same path there, under either collision policy: the first
    occupant wins. *)
Theorem first_occupant_of_a_cell_wins (X : Externals) (h h1 h' : HasteMap)
    (hasteMap published : InternalHasteMap) (pre rest : list string) (t1 : Tables)
    (id platform : string) (m : ModuleMetaData) :
  completion_order X (submitted X h hasteMap) = pre ++ rest →
  settle_all X pre (mkTables (files hasteMap) (l_map (loop_result X h hasteMap)))
    (for_in X hasteMap (files hasteMap) (mkLoop ∅ ∅ []) h).2 = (Return t1, h1) →
  cell (t_map t1) id platform = Some m →
  _buildHasteMap X hasteMap h = (Return published, h') →
  m_path <$> cell (map published) id platform = Some (m_path m).
Proof.
  intros Horder Hpre Hcell Hrun.
  destruct (loop_spec X h hasteMap) as (hl & Hloop & _).
  unfold _buildHasteMap, bind in Hrun. rewrite Hloop in *.
  fold (submitted X h hasteMap) in Hrun. rewrite Horder, settle_all_app in Hrun.
  unfold bind in Hrun. simpl in Hpre. rewrite Hpre in Hrun.
  destruct (settle_all X rest t1 h1) as [[t|e] h2] eqn:Hrest; [|discriminate].
  unfold teardown, ret in Hrun. injection Hrun as <- _. simpl.
  destruct (settle_all_keeps_paths X _ _ _ _ _ _ _ _ Hrest Hcell) as (m' & -> & <-). done.
Qed.

Lemma first_occupant_of_a_cell_wins_witness :
  let crawled := mkHasteMap ∅ [("/src/a.js", World.fresh 1); ("/src/b.js", World.fresh 1)] ∅ ∅ in
  let X := World.world None (λ _, CrawlResolves crawled)
             (World.extractor [("/src/a.js", Some "X"); ("/src/b.js", Some "X")]) in
  let h := constructor X (World.with_policy false 1 World.options) in
  m_path <$> cell (map (or_default (fulfilled (_buildHasteMap X crawled h).1) crawled)) "X" "g"
  = Some "/src/a.js".
Proof.
  cbv zeta.
  set (crawled := mkHasteMap ∅ _ ∅ ∅).
  set (X := World.world None _ _).
  set (h := constructor X _).
  assert (Hcell : (λ r : Result Tables * HasteMap,
                     cell (t_map (or_default (fulfilled r.1) (mkTables [] ∅))) "X" "g")
                    (settle_all X ["/src/a.js"]
                       (mkTables (files crawled) (l_map (loop_result X h crawled)))
                       (for_in X crawled (files crawled) (mkLoop ∅ ∅ []) h).2)
                  = Some (mkModule "/src/a.js" MODULE)) by (vm_compute; reflexivity).
  destruct (settle_all X ["/src/a.js"] _ _) as [[t1|e] h1] eqn:Hpre;
    [|apply (f_equal (λ r, is_return r.1)) in Hpre; vm_compute in Hpre; discriminate].
  destruct (_buildHasteMap X crawled h) as [[published|e] h'] eqn:Hrun;
    [|apply (f_equal (λ r, is_return r.1)) in Hrun; vm_compute in Hrun; discriminate].
  cbn [fst fulfilled or_default] in *.
  exact (first_occupant_of_a_cell_wins X h h1 h' crawled published
           ["/src/a.js"] ["/src/b.js"] t1 "X" "g" (mkModule "/src/a.js" MODULE)
           eq_refl Hpre Hcell Hrun).
Defined.

(** X8: a submitted file whose extraction returns a module id and a module
    ends, in a successful stage, with a visited record that names that id,
    and the cell of that id for the module's platform is occupied in the
    published map. *)
Theorem extracted_module_is_cross_referenced (X : Externals) (h h' : HasteMap)
    (hasteMap published : InternalHasteMap) (q : string) (md : WorkerMetadata)
    (id : string) (module : ModuleMetaData) :
  _buildHasteMap X hasteMap h = (Return published, h') →
  completion_order X (submitted X h hasteMap) ≡ₚ submitted X h hasteMap →
  q ∈ submitted X h hasteMap →
  extraction X q = Some md → truthy (md_id md) = Some id → md_module md = Some module →
  (∃ f, Files.get q (files published) = Some f ∧ f_id f = Some id ∧ f_visited f = true) ∧
  is_Some (cell (map published) id (platform_of X module)).
Proof.
  intros Hrun Hperm Hq Hmd Hid Hmodule.
  destruct (buildHasteMap_returns X _ _ _ _ Hrun) as (h1 & t & h2 & _ & Hsettle & ->).
  destruct (loop_spec X h hasteMap) as (_ & _ & _ & _ & Hkeys). simpl.
  assert (Hin : q ∈ completion_order X (submitted X h hasteMap)) by (by rewrite Hperm).
  split.
  - eapply (settle_all_recorded X (λ f, f_id f = Some id ∧ f_visited f = true));
      [|exact Hsettle | exact Hmd |].
    + intros f. unfold recorded. by rewrite Hid, Hmodule.
    + left. split; [done|]. simpl. apply FilesFacts.get_is_Some. by apply Hkeys.
  - by eapply settle_all_occupies.
Qed.

Lemma extracted_module_is_cross_referenced_witness :
  let crawled := mkHasteMap ∅ [("/src/a.js", World.fresh 1)] ∅ ∅ in
  let X := World.world None (λ _, CrawlResolves crawled)
             (World.extractor [("/src/a.js", Some "A")]) in
  let h := constructor X World.options in
  is_Some (cell (map (or_default (fulfilled (_buildHasteMap X crawled h).1) crawled)) "A" "g").
Proof.
  cbv zeta.
  set (crawled := mkHasteMap ∅ _ ∅ ∅).
  set (X := World.world None _ _).
  set (h := constructor X _).
  destruct (_buildHasteMap X crawled h) as [[published|e] h'] eqn:Hrun;
    [|apply (f_equal (λ r, is_return r.1)) in Hrun; vm_compute in Hrun; discriminate].
  cbn [fst fulfilled or_default].
  apply (extracted_module_is_cross_referenced X h h' crawled published "/src/a.js"
           (mkMetadata (Some "A") (Some (mkModule "/src/a.js" MODULE)) (Some []))
           "A" (mkModule "/src/a.js" MODULE) Hrun (Permutation_refl _));
    [|reflexivity..].
  vm_compute. left.
Defined.

(** X9: the metadata stage leaves [clocks] as the crawler returned it, adds
    no file, never changes a modification time, and leaves the record of
    every file it did not submit to the worker exactly as it was. *)
Theorem unsubmitted_files_are_left_alone (X : Externals) (h h' : HasteMap)
    (hasteMap published : InternalHasteMap) :
  _buildHasteMap X hasteMap h = (Return published, h') →
  clocks published = clocks hasteMap ∧
  (∀ q, q ∉ completion_order X (submitted X h hasteMap) →
        Files.get q (files published) = Files.get q (files hasteMap)) ∧
  (∀ q f', Files.get q (files published) = Some f' →
        ∃ f, Files.get q (files hasteMap) = Some f ∧ f_mtime f' = f_mtime f).
Proof.
  intros Hrun.
  destruct (buildHasteMap_returns X _ _ _ _ Hrun) as (h1 & t & h2 & _ & Hsettle & ->). simpl.
  split; [done|]. split.
  - intros q Hq. by apply (settle_all_untouched X _ _ _ _ _ q Hsettle).
  - intros q f' Hq. by apply (settle_all_mtime X _ _ _ _ _ q f' Hsettle).
Qed.

Lemma unsubmitted_files_are_left_alone_witness :
  let crawled :=
    mkHasteMap ∅ [("/src/a.js", World.seen "A" 1); ("/src/b.js", World.fresh 2)]
      {[ "A" := {[ "g" := mkModule "/src/a.js" MODULE ]} ]} ∅ in
  let X := World.world None (λ _, CrawlResolves crawled)
             (World.extractor [("/src/b.js", Some "B")]) in
  let h := constructor X World.options in
  Files.get "/src/a.js" (files (or_default (fulfilled (_buildHasteMap X crawled h).1) crawled))
  = Some (World.seen "A" 1).
Proof.
  cbv zeta.
  set (crawled := mkHasteMap ∅ _ _ ∅).
  set (X := World.world None _ _).
  set (h := constructor X _).
  destruct (_buildHasteMap X crawled h) as [[published|e] h'] eqn:Hrun;
    [|apply (f_equal (λ r, is_return r.1)) in Hrun; vm_compute in Hrun; discriminate].
  cbn [fst fulfilled or_default].
  rewrite (proj1 (proj2 (unsubmitted_files_are_left_alone X h h' crawled published Hrun))
             "/src/a.js"); [reflexivity|].
  vm_compute. intros H. apply list_elem_of_singleton in H. discriminate.
Defined.

(** X10: when the worker returns modules whose path is the file it was
    given, and every path named in the cached map is a file of the crawled
    table whose extraction, if it is requested, does not fail, then after a
    successful stage every path stored in the published map is a key of
    the published files table. *)
Theorem map_paths_are_files_when_the_cache_is_sound (X : Externals) (h h' : HasteMap)
    (hasteMap published : InternalHasteMap) :
  _buildHasteMap X hasteMap h = (Return published, h') →
  completion_order X (submitted X h hasteMap) ≡ₚ submitted X h hasteMap →
  (∀ q md m, extraction X q = Some md → md_module md = Some m → m_path m = q) →
  (∀ id platform m, cell (map hasteMap) id platform = Some m →
     is_Some (Files.get (m_path m) (files hasteMap)) ∧
     (m_path m ∈ submitted X h hasteMap → extraction X (m_path m) ≠ None)) →
  ∀ id platform m, cell (map published) id platform = Some m →
    is_Some (Files.get (m_path m) (files published)).
Proof.
  intros Hrun Hperm Hworker Hcache id platform m Hcell.
  destruct (buildHasteMap_returns X _ _ _ _ Hrun) as (h1 & t & h2 & _ & Hsettle & ->).
  destruct (loop_spec X h hasteMap) as (_ & _ & _ & Hloop & Hkeys). simpl in *.
  destruct (settle_all_adds_only X _ _ _ _ _ _ _ _ Hsettle Hcell)
    as [Hcopied | (q & md & Hq & Hmd & _ & Hmodule & _)].
  - assert (Hcached : cell (map hasteMap) id platform = Some m).
    { unfold cell in *. simpl in Hcopied.
      destruct (l_map (loop_result X h hasteMap) !! id) as [mm|] eqn:Hmm; [|discriminate].
      apply Hloop in Hmm as (entry & _ & _ & _ & _ & ->). done. }
    destruct (Hcache id platform m Hcached) as [Hfile Hok].
    apply (settle_all_stays X _ _ _ _ _ _ Hsettle); [done|].
    intros Hin. apply Hok. by rewrite <- Hperm.
  - rewrite (Hworker q md m Hmd Hmodule).
    apply (settle_all_stays X _ _ _ _ _ _ Hsettle).
    + simpl. apply FilesFacts.get_is_Some, Hkeys. by rewrite <- Hperm.
    + intros _. congruence.
Qed.

Lemma map_paths_are_files_when_the_cache_is_sound_witness :
  let crawled :=
    mkHasteMap ∅ [("/src/a.js", World.seen "A" 1); ("/src/b.js", World.fresh 2)]
      {[ "A" := {[ "g" := mkModule "/src/a.js" MODULE ]} ]} ∅ in
  let X := World.world None (λ _, CrawlResolves crawled)
             (World.extractor [("/src/a.js", Some "A"); ("/src/b.js", Some "B")]) in
  let h := constructor X World.options in
  is_Some (Files.get "/src/b.js"
             (files (or_default (fulfilled (_buildHasteMap X crawled h).1) crawled))).
Proof.
  cbv zeta.
  set (crawled := mkHasteMap ∅ _ _ ∅).
  set (X := World.world None _ _).
  set (h := constructor X _).
  destruct (_buildHasteMap X crawled h) as [[published|e] h'] eqn:Hrun;
    [|apply (f_equal (λ r, is_return r.1)) in Hrun; vm_compute in Hrun; discriminate].
  cbn [fst fulfilled or_default].
  assert (Hcell : (λ r : Result InternalHasteMap * HasteMap,
                     cell (map (or_default (fulfilled r.1) crawled)) "B" "g")
                    (_buildHasteMap X crawled h) = Some (mkModule "/src/b.js" MODULE))
    by (vm_compute; reflexivity).
  rewrite Hrun in Hcell. cbn [fst fulfilled or_default] in Hcell.
  apply (map_paths_are_files_when_the_cache_is_sound X h h' crawled published Hrun
           (Permutation_refl _)) with (id := "B") (platform := "g")
           (m := mkModule "/src/b.js" MODULE); [| |exact Hcell].
  - intros q md m. unfold extraction, X. simpl.
    destruct (decide ("/src/a.js" = q)) as [<-|]; simpl; [by intros [= <-] [= <-]|].
    destruct (decide ("/src/b.js" = q)) as [<-|]; simpl; [by intros [= <-] [= <-]|].
    discriminate.
  - intros id platform m Hm. unfold cell in Hm. simpl in Hm.
    destruct (decide (id = "A")) as [->|Hne].
    + rewrite lookup_singleton_eq in Hm. simpl in Hm.
      destruct (decide (platform = "g")) as [->|Hne].
      * rewrite lookup_singleton_eq in Hm. injection Hm as <-.
        split; [by eexists | discriminate].
      * by rewrite lookup_singleton_ne in Hm.
    + by rewrite lookup_singleton_ne in Hm.
Defined.

(** ** The pipeline as a sequence of stages *)

Section PipelineFacts.
Context (X : Externals).

Lemma load_state (h : HasteMap) :
  ∃ m, load X h =
       (Return m,
        extend h (if or_default (resetCache (_options h)) false
                  then [] else [EReadFile (_cachePath h)])).
Proof.
  unfold load, catch. destruct (or_default (resetCache (_options h)) false).
  - eexists. unfold ret. by rewrite extend_nil.
  - unfold read, bind, tell, lift, ret. simpl.
    destruct (readFileSync X (_cachePath h)) as [data|e]; [|by eexists].
    destruct (_parse X data); by eexists.
Qed.

Lemma crawl_log (hasteMap : JSON) (h : HasteMap) :
  ∃ events, log (_crawl X hasteMap h).2 = log h ++ events ∧
    Forall crawler_event events ∧
    (Log.crawls events = [selected_crawler X h] ∨
     Log.crawls events = [watchmanCrawl; nodeCrawl]).
Proof.
  unfold _crawl, bind, call_crawler, tell, ret. simpl.
  set (o := _options h).
  assert (Hone : ∀ r : Result InternalHasteMap,
            ∃ events,
              log (r, emit (ECrawl (selected_crawler X h) (roots o) (extensions o)
                              (_ignore X h) hasteMap) h).2 = log h ++ events ∧
              Forall crawler_event events ∧
              (Log.crawls events = [selected_crawler X h] ∨
               Log.crawls events = [watchmanCrawl; nodeCrawl])).
  { intros r. eexists. split; [done|]. split; [|by left]. by repeat constructor. }
  assert (Hretry : ∀ error,
            ∃ events,
              log (retry X (selected_crawler X h) hasteMap error
                     (emit (ECrawl (selected_crawler X h) (roots o) (extensions o)
                              (_ignore X h) hasteMap) h)).2 = log h ++ events ∧
              Forall crawler_event events ∧
              (Log.crawls events = [selected_crawler X h] ∨
               Log.crawls events = [watchmanCrawl; nodeCrawl])).
  { intros error. destruct (selected_crawler X h) eqn:Hsel; simpl.
    - unfold bind, call_crawler, tell, ret, throw. simpl.
      exists [ECrawl watchmanCrawl (roots o) (extensions o) (_ignore X h) hasteMap;
              EWarn (watchman_warning error);
              ECrawl nodeCrawl (roots o) (extensions o) (_ignore X h) hasteMap].
      split; [|split; [by repeat constructor | by right]].
      destruct (crawl X nodeCrawl _ _ _ _); simpl; by rewrite <- !app_assoc.
    - unfold throw. apply (Hone (Throw error)). }
  destruct (crawl X (selected_crawler X h) (roots o) (extensions o) (_ignore X h) hasteMap)
    as [e|e|m]; [apply Hretry | apply Hretry | apply (Hone (Return m))].
Qed.

Lemma buildHasteMap_log (hasteMap : InternalHasteMap) (h : HasteMap) :
  ∃ events, log (_buildHasteMap X hasteMap h).2 = log h ++ events ∧
            Forall builder_event events.
Proof.
  destruct (buildHasteMap_state X hasteMap h) as [msgs Hstate]. cbv zeta in Hstate.
  destruct (submit_all_log h (submitted X h hasteMap)) as (created & Hlog & Hcreated & _).
  assert (Hevents : Forall builder_event
                      (created ++ (EExtract <$> submitted X h hasteMap) ++ (EWarn <$> msgs))).
  { apply Forall_app. split; [destruct Hcreated as [-> | ->]; by repeat constructor|].
    apply Forall_app. split; apply Forall_fmap, Forall_forall; by intros. }
  rewrite Hstate. destruct (is_return _).
  - rewrite teardown_log, log_extend, Hlog.
    exists ((created ++ (EExtract <$> submitted X h hasteMap) ++ (EWarn <$> msgs)) ++
            match _workerFarm (extend (foldl submit h (submitted X h hasteMap))
                                 (EWarn <$> msgs)) with
            | Some farm => [EFarmEnd farm]
            | None => []
            end).
    split; [by rewrite <- !app_assoc|].
    apply Forall_app. split; [done|]. destruct (_workerFarm _); by repeat constructor.
  - rewrite log_extend, Hlog. eexists. split; [|exact Hevents]. by rewrite <- !app_assoc.
Qed.

(** The stages before the write, on the log. *)
Lemma stages_log (h : HasteMap) :
  ∃ crawled built,
    log (stages_before_persist X h).2 =
      log h ++ (if or_default (resetCache (_options h)) false
                then [] else [EReadFile (_cachePath h)]) ++ crawled ++ built ∧
    Forall crawler_event crawled ∧
    (Log.crawls crawled = [selected_crawler X h] ∨
     Log.crawls crawled = [watchmanCrawl; nodeCrawl]) ∧
    Forall builder_event built.
Proof.
  unfold stages_before_persist, _buildFileMap, bind.
  destruct (load_state h) as [m ->].
  set (loaded := if or_default (resetCache (_options h)) false
                 then [] else [EReadFile (_cachePath h)]).
  destruct (crawl_log m (extend h loaded)) as (crawled & Hcrawl & Hc1 & Hc2).
  assert (Hsel : selected_crawler X (extend h loaded) = selected_crawler X h) by done.
  rewrite Hsel in Hc2. rewrite log_extend in Hcrawl.
  destruct (_crawl X m (extend h loaded)) as [[fileMap|e] h1]; simpl in Hcrawl.
  - destruct (buildHasteMap_log fileMap h1) as (built & Hbuilt & Hb).
    exists crawled, built. split; [|done]. rewrite Hbuilt, Hcrawl. by rewrite <- !app_assoc.
  - exists crawled, []. split; [|done]. simpl. by rewrite Hcrawl, app_nil_r, <- !app_assoc.
Qed.

(** The pipeline is the stages before the write, then the write, then the
    wrapping of the index that was written. *)
Lemma pipeline_run (h : HasteMap) :
  pipeline X h =
  match (stages_before_persist X h).1 with
  | Return internalHasteMap =>
      (match writeFileSync X (_cachePath h) (JSON_stringify X internalHasteMap) with
       | Return _ => Return (publish X internalHasteMap)
       | Throw e => Throw e
       end,
       extend (stages_before_persist X h).2
         [EWriteFile (_cachePath h) (JSON_stringify X internalHasteMap)])
  | Throw e => (Throw e, (stages_before_persist X h).2)
  end.
Proof.
  assert (Hpath : _cachePath (stages_before_persist X h).2 = _cachePath h).
  { assert (Hf : framed (stages_before_persist X)).
    { apply framed_bind; [apply framed_buildFileMap | apply framed_buildHasteMap]. }
    apply (Hf h). }
  unfold pipeline, stages_before_persist, bind in *.
  destruct (_buildFileMap X h) as [[fileMap|e] h1]; [|done].
  destruct (_buildHasteMap X fileMap h1) as [[m|e] h2]; [|done].
  simpl in *. unfold _persist, bind, tell, lift, ret. simpl. rewrite Hpath.
  by destruct (writeFileSync X (_cachePath h) (JSON_stringify X m)).
Qed.

Lemma written_app (a b : list Event) : written (a ++ b) = written a ++ written b.
Proof. apply omap_app. Qed.

Lemma written_of_stage_events (events : list Event) :
  Forall (λ e, crawler_event e ∨ builder_event e ∨ ∃ p, e = EReadFile p) events →
  written events = [].
Proof.
  induction 1 as [|e events He _ IH]; [done|].
  destruct e; simpl; try exact IH; destruct He as [[] | [[] | [? [=]]]].
Qed.

End PipelineFacts.

(** X11: the pipeline acts on the outside in the order of its stages: at
    most one read of the cache file (none with [resetCache]), then the
    crawler calls (the selected crawler alone, or the watcher followed by
    the native crawler) with their diagnostics, then the events of the
    metadata stage, and last one write of the cache file, which happens
    exactly when the stages before it succeeded. *)
Theorem pipeline_acts_stage_by_stage (X : Externals) (h : HasteMap) :
  ∃ crawled built,
    log (pipeline X h).2 =
      log h ++
      (if or_default (resetCache (_options h)) false then [] else [EReadFile (_cachePath h)]) ++
      crawled ++ built ++
      match (stages_before_persist X h).1 with
      | Return internalHasteMap =>
          [EWriteFile (_cachePath h) (JSON_stringify X internalHasteMap)]
      | Throw _ => []
      end ∧
    Forall crawler_event crawled ∧
    (Log.crawls crawled = [selected_crawler X h] ∨
     Log.crawls crawled = [watchmanCrawl; nodeCrawl]) ∧
    Forall builder_event built.
Proof.
  destruct (stages_log X h) as (crawled & built & Hlog & Hc1 & Hc2 & Hb).
  exists crawled, built. split; [|done]. rewrite pipeline_run.
  destruct (stages_before_persist X h).1; simpl; rewrite Hlog.
  - by rewrite <- !app_assoc.
  - by rewrite app_nil_r.
Qed.

(** X12: [build()] resolves to the file store and the module map of exactly
    the index whose serialization it has written to the cache path; when
    the write fails it rejects with the error of the write, and when an
    earlier stage fails it rejects with that stage's error and writes
    nothing. *)
Theorem published_index_is_the_persisted_one (X : Externals) (h : HasteMap) :
  (pipeline X h).1 =
    match (stages_before_persist X h).1 with
    | Return internalHasteMap =>
        match writeFileSync X (_cachePath h) (JSON_stringify X internalHasteMap) with
        | Return _ => Return (publish X internalHasteMap)
        | Throw e => Throw e
        end
    | Throw e => Throw e
    end ∧
  written (log (pipeline X h).2) =
    written (log h) ++
    match (stages_before_persist X h).1 with
    | Return internalHasteMap => [(_cachePath h, JSON_stringify X internalHasteMap)]
    | Throw _ => []
    end.
Proof.
  destruct (stages_log X h) as (crawled & built & Hlog & Hc1 & _ & Hb).
  assert (Hstages : written (log (stages_before_persist X h).2) = written (log h)).
  { rewrite Hlog, !written_app.
    rewrite (written_of_stage_events crawled), (written_of_stage_events built).
    - destruct (or_default _ _); simpl; by rewrite !app_nil_r.
    - eapply Forall_impl; [exact Hb | tauto].
    - eapply Forall_impl; [exact Hc1 | tauto]. }
  rewrite pipeline_run. destruct (stages_before_persist X h).1; simpl; [|by rewrite app_nil_r].
  split; [done|]. by rewrite written_app, Hstages.
Qed.
